(** * Synthetic transaction generator: a shallow embedding of [generate.py]

    The Python module builds users, cards and merchants, synthesises a
    stream of transactions over them, derives fraud alerts and rolls the
    spend up into reward points.  This file embeds that code and proves
    the properties stated about it.

    Modelling conventions.
    - Python [float] values are exact rationals ([Q]): sums, products and
      comparisons are the ideal ones, [round(x, k)] is round-half-even on
      the decimal scale [10^k], [astype(int)] truncates toward zero.  The
      rewards roll-up is also given with every [float64] operation rounded
      to binary64 ([points_df_binary64]), since its integer truncations
      can tell a rounded sum from the exact one.
    - A naive [datetime] is its number of microseconds since 1970-01-01
      00:00:00, the resolution of the type; [hour] and [weekday] are
      derived, and a [timedelta] is a difference of such numbers.
    - The three generators ([random], [numpy.random] and Faker's own) share
      one global state: a tape of raw words and of text samples together
      with a read position.  Every draw reads the tape at the position and
      advances it.  Only the support of each distribution is modelled.
    - Exceptions are results: a computation returns a value or raises. *)

From Stdlib Require Import ZArith QArith Qround Qabs Qpower Lia Lqa Ascii.
From stdpp Require Import base strings gmap list pretty sorting.

Open Scope Z_scope.

(** ** Rationals standing for floats *)

Definition Qgtb (a b : Q) : bool := negb (Qle_bool a b).

(** [max(a, b)] and [min(a, b)] of Python: the first argument wins ties. *)
Definition py_max (a b : Q) : Q := if Qgtb b a then b else a.
Definition py_min (a b : Q) : Q := if Qgtb a b then b else a.

(** Round half to even, as [round] does on the exact value. *)
Definition round_half_even (q : Q) : Z :=
  let f := Qfloor q in
  let r := (q - inject_Z f)%Q in
  if Qgtb (1 # 2) r then f
  else if Qgtb r (1 # 2) then f + 1
  else if Z.even f then f else f + 1.

Definition py_round (q : Q) (ndigits : nat) : Q :=
  let scale := 10 ^ Z.of_nat ndigits in
  (inject_Z (round_half_even (q * inject_Z scale)) / inject_Z scale)%Q.

(** [Series.astype(int)] on a float column: truncation toward zero. *)
Definition astype_int (q : Q) : Z := Z.quot (Qnum q) (Z.pos (Qden q)).

(** ** Naive datetimes as microseconds since the epoch *)

Definition hour (t : Z) : Z := (t / 3600000000) mod 24.

(** Monday is 0; 1970-01-01 was a Thursday. *)
Definition weekday (t : Z) : Z := (t / 86400000000 + 3) mod 7.

(** [timedelta(days=d)] *)
Definition days (d : Z) : Z := d * 86400000000.

(** [timedelta.total_seconds()] *)
Definition total_seconds (delta : Z) : Q := delta # 1000000.

(** ** The global random state and the monad of draws *)

Record Rng := { tape : nat -> N; text : nat -> string; pos : nat }.

Inductive exn := IndexError | KeyError | ValueError.

Inductive res (A : Type) :=
| Ok (a : A)
| Raise (e : exn).
Arguments Ok {A} a.
Arguments Raise {A} e.

Definition M (A : Type) : Type := Rng -> res A * Rng.

Definition ret {A} (a : A) : M A := fun g => (Ok a, g).

Definition bind {A B} (m : M A) (f : A -> M B) : M B :=
  fun g => match m g with
           | (Ok a, g') => f a g'
           | (Raise e, g') => (Raise e, g')
           end.

Definition raise {A} (e : exn) : M A := fun g => (Raise e, g).

Notation "x <- c ;; k" := (bind c (fun x => k))
  (at level 100, c at next level, right associativity).

Definition advance (g : Rng) : Rng :=
  {| tape := tape g; text := text g; pos := S (pos g) |}.

Definition next_word : M N := fun g => (Ok (tape g (pos g)), advance g).

Definition next_text : M string := fun g => (Ok (text g (pos g)), advance g).

(** [random.random()]: a 53-bit integer over [2^53], so in [[0, 1)]. *)
Definition two53 : positive := 9007199254740992.

Definition random_random : M Q :=
  w <- next_word ;; ret (Z.of_N (w mod Npos two53) # two53).

(** [random.uniform(a, b)] is [a + (b - a) * random()]. *)
Definition random_uniform (a b : Q) : M Q :=
  u <- random_random ;; ret (a + (b - a) * u)%Q.

(** [random.choice(seq)]: [IndexError] on an empty sequence. *)
Definition random_choice {A} (seq : list A) : M A :=
  match seq with
  | [] => raise IndexError
  | x :: _ =>
      w <- next_word ;;
      ret (default x (seq !! (N.to_nat w mod length seq)%nat))
  end.

(** [random.randint(a, b)]: [ValueError] on an empty range. *)
Definition random_randint (a b : Z) : M Z :=
  if b <? a then raise ValueError
  else w <- next_word ;; ret (a + Z.of_N w mod (b - a + 1)).

(** [random.choices(population, weights)[0]]: bisection of
    [random() * total] in the cumulative weights, the last one excluded. *)
Fixpoint accumulate (acc : Q) (ws : list Q) : list Q :=
  match ws with
  | [] => []
  | w :: ws' => (acc + w)%Q :: accumulate (acc + w)%Q ws'
  end.

Definition bisect (cum : list Q) (x : Q) : nat :=
  length (List.filter (fun c => Qle_bool c x) cum).

Definition random_choices {A} (population : list A) (weights : list Q) : M A :=
  match population with
  | [] => raise IndexError
  | x :: _ =>
      let cum := accumulate 0 weights in
      let total := List.last cum 0%Q in
      u <- random_random ;;
      let k := bisect (take (length population - 1) cum) (u * total)%Q in
      ret (default x (population !! k))
  end.

(** [numpy.random.beta]: some value strictly between 0 and 1. *)
Definition np_random_beta (a b : Q) : M Q :=
  n <- next_word ;; d <- next_word ;;
  ret (Z.of_N n + 1 # N.succ_pos (n + d + 1)).

(** [numpy.random.lognormal(mean = log(median), sigma)]: some positive
    value.  The location is passed as the median since [log] has no
    rational value. *)
Definition np_random_lognormal (median sigma : Q) : M Q :=
  n <- next_word ;; d <- next_word ;;
  ret (Z.of_N n + 1 # N.succ_pos d).

(** [timegm(dt.timetuple())]: the whole seconds of an instant, its
    microseconds dropped. *)
Definition datetime_to_timestamp (t : Z) : Z := t / 1000000.

(** [datetime(1970, 1, 1) + timedelta(seconds=ts)]: a [timedelta] built
    from a float rounds it to the nearest microsecond, ties to even. *)
Definition timestamp_to_datetime (ts : Q) : Z :=
  round_half_even (ts * 1000000).

(** [fake.date_time_between(start_date, end_date)] on two datetimes.
    Faker reduces both bounds to whole seconds, draws a float timestamp
    uniformly between them, or within one second after the start when
    the bounds are at most one second apart (an inverted window
    included), and converts it back.  It never raises, and the result
    can precede [start_date] or follow [end_date]. *)
Definition fake_date_time_between (start_date end_date : Z) : M Z :=
  let start_ts := datetime_to_timestamp start_date in
  let end_ts := datetime_to_timestamp end_date in
  ts <- (if end_ts - start_ts <=? 1
         then u <- random_random ;; ret (inject_Z start_ts + u)%Q
         else random_uniform (inject_Z start_ts) (inject_Z end_ts)) ;;
  ret (timestamp_to_datetime ts).

(** [fake.latitude()] and [fake.longitude()]: six decimals inside the
    coordinate range. *)
Definition fake_coordinate (bound : Z) : M Q :=
  w <- next_word ;;
  ret (Z.of_N w mod (2 * bound * 1000000 + 1) - bound * 1000000 # 1000000).

Definition fake_latitude : M Q := fake_coordinate 90.
Definition fake_longitude : M Q := fake_coordinate 180.

(** ** Formatting of identifiers *)

Fixpoint zeros (n : nat) : string :=
  match n with
  | O => ""
  | S n' => "0" +:+ zeros n'
  end.

(** [f'{n:0{width}d}'] for a non-negative [n]. *)
Definition fmt_d (width : nat) (n : Z) : string :=
  let s := pretty n in
  zeros (width - String.length s) +:+ s.

(** ** Configuration held by [TransactionDataGenerator] *)

Record CategoryInfo := { fraud_rate : Q; avg_amount : Q }.

(** A dictionary in insertion order: [list(d.keys())] is the key column. *)
Definition merchant_categories : list (string * CategoryInfo) :=
  [ ("grocery", {| fraud_rate := 1 # 100; avg_amount := 8550 # 100 |});
    ("gas_station", {| fraud_rate := 2 # 100; avg_amount := 4520 # 100 |});
    ("restaurant", {| fraud_rate := 15 # 1000; avg_amount := 3280 # 100 |});
    ("retail", {| fraud_rate := 25 # 1000; avg_amount := 12540 # 100 |});
    ("electronics", {| fraud_rate := 35 # 1000; avg_amount := 45075 # 100 |});
    ("online_shopping", {| fraud_rate := 4 # 100; avg_amount := 8930 # 100 |});
    ("travel", {| fraud_rate := 3 # 100; avg_amount := 85020 # 100 |});
    ("entertainment", {| fraud_rate := 2 # 100; avg_amount := 6580 # 100 |});
    ("healthcare", {| fraud_rate := 1 # 100; avg_amount := 18050 # 100 |});
    ("utilities", {| fraud_rate := 5 # 1000; avg_amount := 12030 # 100 |});
    ("luxury_goods", {| fraud_rate := 8 # 100; avg_amount := 2500 # 1 |});
    ("cryptocurrency", {| fraud_rate := 12 # 100; avg_amount := 500 # 1 |});
    ("money_transfer", {| fraud_rate := 15 # 100; avg_amount := 300 # 1 |});
    ("adult_entertainment", {| fraud_rate := 6 # 100; avg_amount := 75 # 1 |});
    ("gambling", {| fraud_rate := 10 # 100; avg_amount := 200 # 1 |}) ]%string.

Definition high_risk_locations : list string :=
  [ "Miami, FL"; "Las Vegas, NV"; "Atlantic City, NJ";
    "Los Angeles, CA"; "New York, NY"; "Chicago, IL" ]%string.

Definition normal_locations : list string :=
  [ "Austin, TX"; "Denver, CO"; "Seattle, WA"; "Portland, OR";
    "Boston, MA"; "Philadelphia, PA"; "Phoenix, AZ"; "San Diego, CA";
    "Dallas, TX"; "Houston, TX"; "Atlanta, GA"; "Nashville, TN" ]%string.

Definition device_types : list string :=
  [ "mobile"; "desktop"; "tablet"; "pos_terminal" ]%string.

Definition card_types : list string :=
  [ "Visa"; "MasterCard"; "American Express"; "Discover" ]%string.

(** [d[key]]: [KeyError] when the key is absent. *)
Fixpoint dict_lookup {V} (d : list (string * V)) (key : string) : option V :=
  match d with
  | [] => None
  | (k, v) :: d' => if String.eqb k key then Some v else dict_lookup d' key
  end.

Definition dict_get {V} (d : list (string * V)) (key : string) : M V :=
  match dict_lookup d key with
  | Some v => ret v
  | None => raise KeyError
  end.

(** [x in seq] on strings. *)
Definition str_in (x : string) (seq : list string) : bool :=
  existsb (String.eqb x) seq.

(** ** Entities

    The records keep the fields the engine and the roll-up read, and the
    identifiers; the remaining Faker text columns of the source (names,
    addresses, dates) are never read back and are left out. *)

Module User.
Record t := { user_id : string; is_active : bool; risk_score : Q }.
End User.

Module Card.
Record t := {
  card_id : string; user_id : string; card_number : string;
  card_type : string; issuer : string; is_active : bool;
  credit_limit : Z; current_balance : Q }.
End Card.

Module Merchant.
Record t := {
  merchant_id : string; merchant_name : string;
  merchant_category : string; merchant_category_code : string;
  city : string; is_active : bool; risk_score : Q }.
End Merchant.

Module Txn.
Record t := {
  transaction_id : string; card_id : string; card_number : string;
  user_id : string; merchant_id : string; merchant_name : string;
  merchant_category : string; amount : Q; currency : string;
  transaction_time : Z; location : string;
  latitude : Q; longitude : Q;
  device_id : string; device_type : string; source_system : string;
  seconds_since_prev_tx : option Q;
  is_fraud : bool; fraud_probability : Q; created_at : Z }.
End Txn.

Module Alert.
Record t := {
  alert_id : string; transaction_id : string; user_id : string;
  fraud_probability : Q; risk_level : string; alert_type : string;
  description : string; status : string; created_at : Z }.
End Alert.

(** ** Entity generators *)

(** [for x in xs: out.append(f(x))], stopping at the first exception. *)
Fixpoint for_each {A B} (f : A -> M B) (xs : list A) : M (list B) :=
  match xs with
  | [] => ret []
  | x :: xs' => y <- f x ;; ys <- for_each f xs' ;; ret (y :: ys)
  end.

(** [range(n)] *)
Definition range (n : Z) : list Z := seqZ 0 n.

Definition generate_users (n_users : Z) : M (list User.t) :=
  for_each (fun i =>
    active <- random_choice [true; true; true; false] ;;
    risk <- np_random_beta 2 5 ;;
    ret {| User.user_id := "user_" +:+ fmt_d 5 (i + 1);
           User.is_active := active;
           User.risk_score := risk |}) (range n_users).

Definition generate_cards (users : list User.t) : M (list Card.t) :=
  per_user <- for_each (fun user =>
    n_cards <- random_choices [1; 2; 3] [6 # 10; 3 # 10; 1 # 10]%Q ;;
    for_each (fun c =>
      credit_limit <- random_choice [5000; 10000; 15000; 20000; 25000; 50000] ;;
      number <- random_randint 1000 9999 ;;
      ctype <- random_choice card_types ;;
      issuer <- random_choice
        [ "Chase Bank"; "Bank of America"; "Wells Fargo"; "Citi Bank";
          "Capital One" ]%string ;;
      active <- random_choice [true; true; true; false] ;;
      u <- random_uniform 0 (8 # 10) ;;
      ret {| Card.card_id :=
               "card_" +:+ User.user_id user +:+ "_" +:+ fmt_d 2 (c + 1);
             Card.user_id := User.user_id user;
             Card.card_number := "****" +:+ pretty number;
             Card.card_type := ctype;
             Card.issuer := issuer;
             Card.is_active := active;
             Card.credit_limit := credit_limit;
             Card.current_balance :=
               py_round (u * inject_Z credit_limit) 2 |}) (range n_cards))
    users ;;
  ret (concat per_user).

Definition generate_merchants (n_merchants : Z) : M (list Merchant.t) :=
  for_each (fun i =>
    category <- random_choice (map fst merchant_categories) ;;
    name <- next_text ;;
    code <- random_randint 1000 9999 ;;
    city <- next_text ;;
    active <- random_choice [true; true; true; false] ;;
    risk <- np_random_beta 2 5 ;;
    ret {| Merchant.merchant_id := "merchant_" +:+ fmt_d 5 (i + 1);
           Merchant.merchant_name := name;
           Merchant.merchant_category := category;
           Merchant.merchant_category_code := "MCC_" +:+ pretty code;
           Merchant.city := city;
           Merchant.is_active := active;
           Merchant.risk_score := risk |}) (range n_merchants).

(** ** The fraud-probability scorer *)

Definition _calculate_fraud_probability
    (amount : Q) (transaction_time : Z) (location merchant_category : string)
    (user_risk_score : Q) (is_fraud : bool) : M Q :=
  let probability := 0%Q in
  let probability :=
    if Qgtb amount 10000 then (probability + (3 # 10))%Q
    else if Qgtb amount 5000 then (probability + (2 # 10))%Q
    else if Qgtb amount 1000 then (probability + (1 # 10))%Q
    else probability in
  let probability :=
    if (22 <=? hour transaction_time) || (hour transaction_time <? 6)
    then (probability + (15 # 100))%Q else probability in
  let probability :=
    if 5 <=? weekday transaction_time
    then (probability + (1 # 10))%Q else probability in
  let probability :=
    if str_in location high_risk_locations
    then (probability + (2 # 10))%Q else probability in
  category_info <- dict_get merchant_categories merchant_category ;;
  let probability := (probability + fraud_rate category_info * 2)%Q in
  let probability := (probability + user_risk_score * (3 # 10))%Q in
  noise <- random_uniform (- (1 # 10)) (1 # 10) ;;
  let probability := (probability + noise)%Q in
  let probability := py_max 0 (py_min 1 probability) in
  let probability :=
    if is_fraud then py_max probability (1 # 2) else probability in
  ret probability.

(** ** The transaction synthesizer *)

(** The effective per-transaction fraud rate of the loop body. *)
Definition user_fraud_rate
    (base_fraud_rate risk_score : Q) (transaction_time : Z) (city : string) : Q :=
  let rate := (base_fraud_rate * (1 + risk_score))%Q in
  let rate :=
    if (22 <=? hour transaction_time) || (hour transaction_time <? 6)
    then (rate * (15 # 10))%Q else rate in
  let rate :=
    if 5 <=? weekday transaction_time then (rate * (12 # 10))%Q else rate in
  let rate :=
    if str_in city ["Miami"; "Las Vegas"; "Atlantic City"]%string
    then (rate * (13 # 10))%Q else rate in
  rate.

(** The local variables of [generate_transactions] that the loop updates. *)
Record LoopState := {
  i : Z;
  attempts : Z;
  transactions : list Txn.t;
  last_tx_time_by_card : gmap string Z }.

(** How a run of the loop ended: the exception that escaped, if any, the
    local variables at that point, and the random state left behind. *)
Record Run := { run_exn : option exn; run_state : LoopState; run_rng : Rng }.

Section Synthesizer.

Variables (users : list User.t) (cards : list Card.t)
          (merchants : list Merchant.t).
Variable n_transactions : Z.
Variables start_date end_date : option Z.
(** The reading of [datetime.now()] behind the default window. *)
Variable now : Z.

Definition window_start : Z := default (now - days 90) start_date.
Definition window_end : Z := default now end_date.

Definition eligible (user : User.t) (c : Card.t) : bool :=
  String.eqb (Card.user_id c) (User.user_id user) && Card.is_active c.

(** One pass through the loop body after [attempts += 1]. *)
Definition attempt (st : LoopState) : M LoopState :=
  user <- random_choice users ;;
  let user_cards := List.filter (eligible user) cards in
  match user_cards with
  | [] => ret st
  | _ :: _ =>
    card <- random_choice user_cards ;;
    merchant <- random_choice merchants ;;
    transaction_time <- fake_date_time_between window_start window_end ;;
    category_info <-
      dict_get merchant_categories (Merchant.merchant_category merchant) ;;
    let base_fraud_rate := fraud_rate category_info in
    let rate :=
      user_fraud_rate base_fraud_rate (User.risk_score user)
                      transaction_time (Merchant.city merchant) in
    u <- random_random ;;
    let is_fraud := Qgtb rate u in
    amount <-
      (if is_fraud
       then a <- np_random_lognormal (avg_amount category_info * 2) (8 # 10) ;;
            ret (py_min a 50000)
       else a <- np_random_lognormal (avg_amount category_info) (6 # 10) ;;
            ret (py_min a 5000)) ;;
    high <-
      (if is_fraud
       then v <- random_random ;; ret (Qgtb (3 # 10) v)
       else ret false) ;;
    location <-
      (if high then random_choice high_risk_locations
       else random_choice normal_locations) ;;
    device_type <- random_choice device_types ;;
    device_number <- random_randint 1000 9999 ;;
    let device_id := "device_" +:+ pretty device_number in
    (* [if prev_time:] only tests for [None]: a datetime is never falsy. *)
    let prev_time := last_tx_time_by_card st !! Card.card_id card in
    let seconds_since :=
      match prev_time with
      | Some prev => Some (total_seconds (transaction_time - prev))
      | None => None
      end in
    let last' :=
      <[Card.card_id card := transaction_time]> (last_tx_time_by_card st) in
    p <- _calculate_fraud_probability
           amount transaction_time location
           (Merchant.merchant_category merchant)
           (User.risk_score user) is_fraud ;;
    let fraud_probability := py_round p 4 in
    lat <- fake_latitude ;;
    lon <- fake_longitude ;;
    source <- random_choice
      ["mobile_app"; "web_portal"; "pos_terminal"; "api"]%string ;;
    let txn :=
      {| Txn.transaction_id := "txn_" +:+ fmt_d 7 (i st + 1);
         Txn.card_id := Card.card_id card;
         Txn.card_number := Card.card_number card;
         Txn.user_id := User.user_id user;
         Txn.merchant_id := Merchant.merchant_id merchant;
         Txn.merchant_name := Merchant.merchant_name merchant;
         Txn.merchant_category := Merchant.merchant_category merchant;
         Txn.amount := py_round amount 2;
         Txn.currency := "USD";
         Txn.transaction_time := transaction_time;
         Txn.location := location;
         Txn.latitude := py_round lat 6;
         Txn.longitude := py_round lon 6;
         Txn.device_id := device_id;
         Txn.device_type := device_type;
         Txn.source_system := source;
         Txn.seconds_since_prev_tx := seconds_since;
         Txn.is_fraud := is_fraud;
         Txn.fraud_probability := fraud_probability;
         Txn.created_at := transaction_time |} in
    ret {| i := i st + 1;
           attempts := attempts st;
           transactions := transactions st ++ [txn];
           last_tx_time_by_card := last' |}
  end.

Definition loop_cond (st : LoopState) : bool :=
  (i st <? n_transactions) && (attempts st <? n_transactions * 3).

Definition count_attempt (st : LoopState) : LoopState :=
  {| i := i st; attempts := attempts st + 1;
     transactions := transactions st;
     last_tx_time_by_card := last_tx_time_by_card st |}.

(** The [while] loop.  [fuel] bounds the number of passes the model may
    take; [None] means the bound was hit with the condition still true. *)
Fixpoint while_loop (fuel : nat) (st : LoopState) (g : Rng) : option Run :=
  if loop_cond st then
    match fuel with
    | O => None
    | S fuel' =>
        let st1 := count_attempt st in
        match attempt st1 g with
        | (Ok st', g') => while_loop fuel' st' g'
        | (Raise e, g') =>
            Some {| run_exn := Some e; run_state := st1; run_rng := g' |}
        end
    end
  else Some {| run_exn := None; run_state := st; run_rng := g |}.

Definition initial_state : LoopState :=
  {| i := 0; attempts := 0; transactions := [];
     last_tx_time_by_card := ∅ |}.

Definition generate_transactions_run (fuel : nat) (g : Rng) : option Run :=
  while_loop fuel initial_state g.

(** What the caller sees of a finished run. *)
Definition returned (r : Run) : res (list Txn.t) :=
  match run_exn r with
  | None => Ok (transactions (run_state r))
  | Some e => Raise e
  end.

(** [generate_transactions]: the loop run with the passes its own
    condition allows. *)
Definition generate_transactions (g : Rng) : option Run :=
  generate_transactions_run (Z.to_nat (n_transactions * 3)) g.

End Synthesizer.

(** ** The alert deriver *)

Definition risk_level_of (p : Q) : string :=
  if Qgtb p (8 # 10) then "high" else "medium".

(** The alert record built for a flagged transaction. *)
Definition alert_of (tx : Txn.t) (status : string) : Alert.t :=
  {| Alert.alert_id := "alert_" +:+ Txn.transaction_id tx;
     Alert.transaction_id := Txn.transaction_id tx;
     Alert.user_id := Txn.user_id tx;
     Alert.fraud_probability := Txn.fraud_probability tx;
     Alert.risk_level := risk_level_of (Txn.fraud_probability tx);
     Alert.alert_type := "automatic_fraud_detection";
     Alert.description :=
       "Transaction flagged as "
       +:+ risk_level_of (Txn.fraud_probability tx)
       +:+ " risk fraud";
     Alert.status := status;
     Alert.created_at := Txn.transaction_time tx |}.

Fixpoint generate_fraud_alerts (transactions : list Txn.t) : M (list Alert.t) :=
  match transactions with
  | [] => ret []
  | tx :: rest =>
      if Qgtb (Txn.fraud_probability tx) (5 # 10) then
        status <- random_choice ["pending"; "reviewed"; "resolved"]%string ;;
        alerts <- generate_fraud_alerts rest ;;
        ret (alert_of tx status :: alerts)
      else generate_fraud_alerts rest
  end.

(** ** The rewards roll-up of [save_csvs]

    First in exact arithmetic, which fixes the rows, their keys and
    their order. *)

Module PointsRow.
Record t := { user_id : string; total_spent : Q; points : Z }.
End PointsRow.

Definition string_le (a b : string) : Prop := Is_true (String.leb a b).

#[global] Instance string_le_dec (a b : string) : Decision (string_le a b).
Proof. unfold string_le. apply _. Defined.

(** The [amount] column restricted to one user, summed in row order
    without rounding. *)
Definition sum_amounts (uid : string) (transactions : list Txn.t) : Q :=
  fold_left Qplus
    (map Txn.amount
       (List.filter (fun t => String.eqb (Txn.user_id t) uid) transactions))
    0%Q.

(** [tx_df.groupby('user_id')['amount'].sum().reset_index()]: one row per
    distinct key, keys in sorted order. *)
Definition groupby_sum (transactions : list Txn.t) : list (string * Q) :=
  map (fun uid => (uid, sum_amounts uid transactions))
      (merge_sort string_le (remove_dups (map Txn.user_id transactions))).

(** [left.merge(users_df[['user_id','risk_score']], on='user_id',
    how='left')]: every matching user in pool order, or one row with a
    missing risk score. *)
Definition merge_left {A} (left : list (string * A)) (users : list User.t)
  : list (string * A * option Q) :=
  flat_map (fun row =>
    match List.filter (fun u => String.eqb (User.user_id u) (fst row)) users with
    | [] => [(row, None)]
    | matches => map (fun u => (row, Some (User.risk_score u))) matches
    end) left.

(** [.fillna(0)] *)
Definition fillna (x : option Q) (v : Q) : Q := default v x.

Definition points_df (users : list User.t) (transactions : list Txn.t)
  : res (list PointsRow.t) :=
  match transactions with
  | [] => Raise KeyError (* an empty frame has no 'user_id' column *)
  | _ :: _ =>
      let points_agg :=
        map (fun row => (fst row, (snd row, astype_int (snd row / 10))))
            (groupby_sum transactions) in
      Ok (map (fun r =>
                 match r with
                 | (uid, (total, pts), risk) =>
                     {| PointsRow.user_id := uid;
                        PointsRow.total_spent := total;
                        PointsRow.points :=
                          astype_int
                            (inject_Z pts
                             + fillna (option_map (fun x => x * 10) risk) 0) |}
                 end%Q)
              (merge_left points_agg users))
  end.

(** ** The roll-up in binary64

    [total_spent], [risk_score] and the intermediate columns of the
    roll-up are [float64].  Every operation on them returns the binary64
    value nearest to the exact result, and the two [astype(int)] cut
    that value, so [points] can differ by one from what exact arithmetic
    gives.  A float is the rational it denotes. *)

(** The binade of a positive rational: the [e] with
    [2^e <= q < 2^(e+1)]. *)
Definition binade (q : Q) : Z :=
  let e := Z.log2 (Qnum q) - Z.log2 (Z.pos (Qden q)) in
  if Qle_bool (2 ^ e) q then e else e - 1.

(** Rounding to the nearest binary64 value, ties to even: 53 significant
    bits, exponents from -1022 and gradual underflow below.  Overflow to
    infinity is left out; the amounts are capped at 50000. *)
Definition b64 (q : Q) : Q :=
  let q := Qred q in
  if Qeq_bool q 0 then 0%Q
  else
    let e := Z.max (binade (Qabs q)) (-1022) in
    let ulp := (2 ^ (e - 52))%Q in
    Qred (inject_Z (round_half_even (q / ulp)) * ulp).

Definition float_add (a b : Q) : Q := b64 (a + b).
Definition float_mul (a b : Q) : Q := b64 (a * b).
Definition float_truediv (a b : Q) : Q := b64 (a / b).

(** An [int64] column is converted before it meets a [float64] one. *)
Definition float_of_int (n : Z) : Q := b64 (inject_Z n).

(** A float column accumulated from the left, one rounded addition per
    row. *)
Definition float_sum (column : list Q) : Q := fold_left float_add column 0%Q.

(** The [amount] column restricted to one user, in row order. *)
Definition amounts_of (uid : string) (transactions : list Txn.t) : list Q :=
  map Txn.amount
      (List.filter (fun t => String.eqb (Txn.user_id t) uid) transactions).

Section Binary64Rollup.

(** How [groupby(...).sum()] accumulates a group into one float is
    internal to pandas; [float_sum] is one such accumulation. *)
Variable column_sum : list Q -> Q.

Definition groupby_column_sum (transactions : list Txn.t)
  : list (string * Q) :=
  map (fun uid => (uid, column_sum (amounts_of uid transactions)))
      (merge_sort string_le (remove_dups (map Txn.user_id transactions))).

Definition points_df_binary64
    (users : list User.t) (transactions : list Txn.t)
  : res (list PointsRow.t) :=
  match transactions with
  | [] => Raise KeyError (* an empty frame has no 'user_id' column *)
  | _ :: _ =>
      let points_agg :=
        map (fun row =>
               (fst row, (snd row, astype_int (float_truediv (snd row) 10))))
            (groupby_column_sum transactions) in
      Ok (map (fun r =>
                 match r with
                 | (uid, (total, pts), risk) =>
                     {| PointsRow.user_id := uid;
                        PointsRow.total_spent := total;
                        PointsRow.points :=
                          astype_int
                            (float_add
                               (float_of_int pts)
                               (fillna
                                  (option_map (fun x => float_mul x 10) risk)
                                  0)) |}
                 end)
              (merge_left points_agg users))
  end.

End Binary64Rollup.

(** ** Vocabulary of the properties *)

Section Vocabulary.

Variables (users : list User.t) (cards : list Card.t)
          (merchants : list Merchant.t).
Variable n_transactions : Z.

(** The state after a pass that accepted [txn]. *)
Definition accept (st : LoopState) (txn : Txn.t) : LoopState :=
  {| i := i st + 1;
     attempts := attempts st;
     transactions := transactions st ++ [txn];
     last_tx_time_by_card :=
       <[Txn.card_id txn := Txn.transaction_time txn]>
         (last_tx_time_by_card st) |}.

(** What holds of every transaction the body assembles. *)
Record well_formed (txn : Txn.t) : Prop := {
  wf_user : exists user, user ∈ users /\
              Txn.user_id txn = User.user_id user;
  wf_card : exists card, card ∈ cards /\
              Card.card_id card = Txn.card_id txn /\
              Card.is_active card = true /\
              Card.user_id card = Txn.user_id txn;
  wf_merchant : exists merchant, merchant ∈ merchants /\
              Txn.merchant_id txn = Merchant.merchant_id merchant;
  wf_probability : (0 <= Txn.fraud_probability txn <= 1)%Q;
  wf_floor : Txn.is_fraud txn = true ->
             ((1 # 2) <= Txn.fraud_probability txn)%Q;
  wf_amount : (0 <= Txn.amount txn)%Q }.

(** The gap a transaction records against the last time seen for its
    card. *)
Definition gap_from (last : gmap string Z) (txn : Txn.t) : option Q :=
  (fun prev => total_seconds (Txn.transaction_time txn - prev))
    <$> (last !! Txn.card_id txn).

(** The counters stay within the target and the budget. *)
Definition counters_ok (st : LoopState) : Prop :=
  i st = Z.of_nat (length (transactions st)) /\
  0 <= attempts st <= Z.max 0 (n_transactions * 3) /\
  i st <= Z.max 0 n_transactions.

End Vocabulary.

(** A computation that never raises, and whose value satisfies [P]. *)
Definition succeeds {A} (m : M A) (P : A -> Prop) : Prop :=
  forall g, exists a g', m g = (Ok a, g') /\ P a.

(** Pools on which no draw of the loop body can raise: there is a user
    and a merchant to choose and every merchant's category is in the
    risk model.  The window is asked to run forward, as a caller means
    it to; the time draw itself accepts any window. *)
Definition pools_ok (users : list User.t) (merchants : list Merchant.t)
    (window_start window_end : Z) : Prop :=
  users <> [] /\ merchants <> [] /\
  (forall merchant, merchant ∈ merchants ->
     is_Some (dict_lookup merchant_categories
                          (Merchant.merchant_category merchant))) /\
  window_start <= window_end.

(** The latest transaction on a card among those generated so far. *)
Definition previous_on_card (earlier : list Txn.t) (card_id : string)
  : option Txn.t :=
  List.find (fun t => String.eqb (Txn.card_id t) card_id) (rev earlier).

(** The map of last-seen times mirrors the accepted transactions, and
    every accepted transaction carries the gap to its predecessor on the
    same card. *)
Definition gaps_ok (st : LoopState) : Prop :=
  (forall card_id,
      last_tx_time_by_card st !! card_id =
      Txn.transaction_time <$> previous_on_card (transactions st) card_id) /\
  (forall earlier txn later,
      transactions st = earlier ++ txn :: later ->
      Txn.seconds_since_prev_tx txn =
      (fun prev => total_seconds (Txn.transaction_time txn
                                  - Txn.transaction_time prev))
        <$> previous_on_card earlier (Txn.card_id txn)).

(** What [generate_cards] writes into the card number [c] (from 0) of a
    user. *)
Definition issued (user : User.t) (c : Z) (card : Card.t) : Prop :=
  Card.user_id card = User.user_id user /\
  Card.card_id card
  = "card_" +:+ User.user_id user +:+ "_" +:+ fmt_d 2 (c + 1) /\
  Card.credit_limit card ∈ [5000; 10000; 15000; 20000; 25000; 50000] /\
  (0 <= Card.current_balance card
   <= (8 # 10) * inject_Z (Card.credit_limit card))%Q /\
  Card.card_type card ∈ card_types /\
  (exists number, 1000 <= number <= 9999 /\
     Card.card_number card = "****" +:+ pretty number).

(** Where [fake.date_time_between] can land: from the start of the
    window cut to whole seconds up to its end cut to whole seconds, or
    up to one second after the cut start when the two are at most one
    second apart. *)
Definition drawn_between (start_date end_date t : Z) : Prop :=
  let start_ts := datetime_to_timestamp start_date in
  let end_ts := datetime_to_timestamp end_date in
  start_ts * 1000000 <= t /\
  t <= (if end_ts - start_ts <=? 1 then start_ts + 1 else end_ts) * 1000000.

(** The fields of an emitted transaction that are copied from the pools
    or drawn from fixed ranges, for a window of instants. *)
Record recorded (cards : list Card.t) (merchants : list Merchant.t)
    (window_start window_end : Z) (txn : Txn.t) : Prop := {
  rec_card : exists card, card ∈ cards /\
      Card.card_id card = Txn.card_id txn /\
      Card.card_number card = Txn.card_number txn;
  rec_merchant : exists merchant, merchant ∈ merchants /\
      Merchant.merchant_id merchant = Txn.merchant_id txn /\
      Merchant.merchant_name merchant = Txn.merchant_name txn /\
      Merchant.merchant_category merchant = Txn.merchant_category txn;
  rec_category :
    is_Some (dict_lookup merchant_categories (Txn.merchant_category txn));
  rec_time : drawn_between window_start window_end (Txn.transaction_time txn);
  rec_created : Txn.created_at txn = Txn.transaction_time txn;
  rec_currency : Txn.currency txn = "USD"%string;
  rec_amount :
    (0 <= Txn.amount txn
     <= if Txn.is_fraud txn then 50000 else 5000)%Q;
  rec_location :
    Txn.location txn ∈
      (if Txn.is_fraud txn then high_risk_locations ++ normal_locations
       else normal_locations);
  rec_device_type : Txn.device_type txn ∈ device_types;
  rec_device_id : exists number, 1000 <= number <= 9999 /\
      Txn.device_id txn = "device_" +:+ pretty number;
  rec_source : Txn.source_system txn ∈
      ["mobile_app"; "web_portal"; "pos_terminal"; "api"]%string;
  rec_latitude : (-90 <= Txn.latitude txn <= 90)%Q;
  rec_longitude : (-180 <= Txn.longitude txn <= 180)%Q }.

(** Why a run of the synthesizer can raise: an empty pool, or a merchant
    whose category is not in the risk model. *)
Definition raise_cause (users : list User.t) (merchants : list Merchant.t)
    (e : exn) : Prop :=
  (e = IndexError /\ (users = [] \/ merchants = [])) \/
  (e = KeyError /\
   exists merchant, merchant ∈ merchants /\
     dict_lookup merchant_categories (Merchant.merchant_category merchant)
     = None).

(** ** Small populations and tapes for concrete runs *)

(** A tape that replays the listed words and then yields zeros. *)
Definition rng_of (words : list N) : Rng :=
  {| tape := fun k => nth k words 0%N;
     text := fun _ => "Springfield"%string;
     pos := 0 |}.

Definition alice : User.t :=
  {| User.user_id := "user_00001"; User.is_active := true;
     User.risk_score := 1 # 5 |}.

(** A user switched off whose card is still live. *)
Definition dormant : User.t :=
  {| User.user_id := "user_00002"; User.is_active := false;
     User.risk_score := 2 # 5 |}.

Definition card_of (user : User.t) (active : bool) : Card.t :=
  {| Card.card_id := "card_" +:+ User.user_id user +:+ "_01";
     Card.user_id := User.user_id user;
     Card.card_number := "****1234";
     Card.card_type := "Visa";
     Card.issuer := "Chase Bank";
     Card.is_active := active;
     Card.credit_limit := 5000;
     Card.current_balance := 0 |}.

Definition shop (active : bool) : Merchant.t :=
  {| Merchant.merchant_id := "merchant_00001";
     Merchant.merchant_name := "Springfield Foods";
     Merchant.merchant_category := "grocery";
     Merchant.merchant_category_code := "MCC_5411";
     Merchant.city := "Springfield";
     Merchant.is_active := active;
     Merchant.risk_score := 1 # 10 |}.

(** One day, in microseconds: Thursday 1970-01-01. *)
Definition day_start : option Z := Some 0.
Definition day_end : option Z := Some 86399999999.

(** Two accepted passes without fraud; the second draws the earlier
    instant of the day (100 s after midnight, then 50 s).  The words at
    positions 3 and 17 are the 53-bit fractions nearest to [100 / 86399]
    and [50 / 86399] of the day's 86399 whole seconds. *)
Definition backwards_tape : list N :=
  [ 0; 0; 0; 10425119798540; 9007199254740991; 0; 0; 0; 0; 0; 0; 0; 0; 0;
    0; 0; 0; 5212559899270; 9007199254740991 ]%N.

(** A run of the generators for one user and one merchant.  The word at
    position 0 decides the user's [is_active], at position 8 the card's,
    at position 14 the merchant's; the word 3 picks [False]. *)
Definition inactive_parties_tape : list N :=
  [ 3; 0; 0; 0; 0; 0; 0; 0; 0; 0; 0; 0; 0; 0; 3 ]%N.

Definition inactive_card_tape : list N :=
  [ 0; 0; 0; 0; 0; 0; 0; 0; 3 ]%N.

(** Some reading of the clock. *)
Definition clock : Z := 1700000000000000.

(** Two accepted passes labelled as fraud, each reading fifteen words.
    The word at position 5 makes the first amount 20001, and the words
    at positions 11 and 26 put both noise draws at the top of their
    range, so that both fraud probabilities exceed 0.5. *)
Definition flagged_tape : list N :=
  [ 0; 0; 0; 0; 0; 20000; 0; 0; 0; 0; 0; 9007199254740991; 0; 0; 0;
    0; 0; 0; 0; 0; 0; 0; 0; 0; 0; 0; 9007199254740991 ]%N.

(** Two different words for two successive noise draws. *)
Definition noise_tape : list N := [ 0; 4503599627370496 ]%N.

(** A transaction record reduced to what the roll-up reads. *)
Definition purchase (user : User.t) (amount : Q) : Txn.t :=
  {| Txn.transaction_id := "txn_0000001";
     Txn.card_id := "card_" +:+ User.user_id user +:+ "_01";
     Txn.card_number := "****1234";
     Txn.user_id := User.user_id user;
     Txn.merchant_id := "merchant_00001";
     Txn.merchant_name := "Springfield Foods";
     Txn.merchant_category := "grocery";
     Txn.amount := amount;
     Txn.currency := "USD";
     Txn.transaction_time := 0;
     Txn.location := "Austin, TX";
     Txn.latitude := 0;
     Txn.longitude := 0;
     Txn.device_id := "device_1000";
     Txn.device_type := "mobile";
     Txn.source_system := "api";
     Txn.seconds_since_prev_tx := None;
     Txn.is_fraud := false;
     Txn.fraud_probability := 0;
     Txn.created_at := 0 |}.

(** The user of the worked example: risk score 0.4. *)
Definition bob : User.t :=
  {| User.user_id := "user_00003"; User.is_active := true;
     User.risk_score := 4 # 10 |}.

(** Two users whose risk scores are the floats written [0.05] and
    [0.4]. *)
Definition carol : User.t :=
  {| User.user_id := "user_00004"; User.is_active := true;
     User.risk_score := b64 (5 # 100) |}.

Definition dave : User.t :=
  {| User.user_id := "user_00005"; User.is_active := true;
     User.risk_score := b64 (4 # 10) |}.

(** Three amounts, the floats written [1995.7], [4270.44] and [3.86],
    whose rounded sum falls just short of 6270, and the two amounts of
    the worked example, as interleaved purchases. *)
Definition rollup_purchases : list Txn.t :=
  [ purchase carol (b64 (199570 # 100)); purchase dave 200;
    purchase carol (b64 (427044 # 100)); purchase dave 37;
    purchase carol (b64 (386 # 100)) ].

(** * Properties *)

(** ** Comparison, clamping and rounding on rationals *)

Lemma Qgtb_true (a b : Q) : Qgtb a b = true <-> (b < a)%Q.
Proof.
  unfold Qgtb. rewrite negb_true_iff.
  destruct (Qle_bool a b) eqn:E.
  - apply Qle_bool_iff in E. split; [discriminate | intros H; lra].
  - split; [intros _ | reflexivity].
    apply Qnot_le_lt. intros H. apply Qle_bool_iff in H. congruence.
Qed.

Lemma Qgtb_false (a b : Q) : Qgtb a b = false <-> (a <= b)%Q.
Proof.
  unfold Qgtb. rewrite negb_false_iff. apply Qle_bool_iff.
Qed.

Lemma py_max_lower_l (a b : Q) : (a <= py_max a b)%Q.
Proof.
  unfold py_max. destruct (Qgtb b a) eqn:E; [| lra].
  apply Qgtb_true in E. lra.
Qed.

Lemma py_max_lower_r (a b : Q) : (b <= py_max a b)%Q.
Proof.
  unfold py_max. destruct (Qgtb b a) eqn:E; [lra |].
  apply Qgtb_false in E. lra.
Qed.

Lemma py_max_upper (a b c : Q) : (a <= c -> b <= c -> py_max a b <= c)%Q.
Proof. unfold py_max. destruct (Qgtb b a); auto. Qed.

Lemma py_min_upper_l (a b : Q) : (py_min a b <= a)%Q.
Proof.
  unfold py_min. destruct (Qgtb a b) eqn:E; [| lra].
  apply Qgtb_true in E. lra.
Qed.

Lemma py_min_lower (a b c : Q) : (c <= a -> c <= b -> c <= py_min a b)%Q.
Proof. unfold py_min. destruct (Qgtb a b); auto. Qed.

Lemma py_min_pos (a b : Q) : (0 < a -> 0 < b -> 0 < py_min a b)%Q.
Proof. unfold py_min. destruct (Qgtb a b); auto. Qed.

Lemma round_half_even_lower (n : Z) (q : Q) :
  (inject_Z n <= q)%Q -> n <= round_half_even q.
Proof.
  intros H. apply Qfloor_resp_le in H. rewrite Qfloor_Z in H.
  unfold round_half_even.
  repeat match goal with |- context [if ?c then _ else _] => destruct c end;
    lia.
Qed.

Lemma round_half_even_upper (n : Z) (q : Q) :
  (q <= inject_Z n)%Q -> round_half_even q <= n.
Proof.
  intros H. unfold round_half_even.
  pose proof (Qfloor_le q) as Hf.
  assert (Hfn : Qfloor q <= n).
  { apply Qfloor_resp_le in H. now rewrite Qfloor_Z in H. }
  destruct (Qgtb (1 # 2) (q - inject_Z (Qfloor q))) eqn:E1; [exact Hfn |].
  apply Qgtb_false in E1.
  assert (Hlt : Qfloor q < n).
  { destruct (Z.eq_dec (Qfloor q) n) as [Heq | Hne]; [| lia].
    rewrite Heq in E1. lra. }
  repeat match goal with |- context [if ?c then _ else _] => destruct c end;
    lia.
Qed.

Lemma scale_pos (k : nat) : (0 < inject_Z (10 ^ Z.of_nat k))%Q.
Proof.
  replace 0%Q with (inject_Z 0) by reflexivity. rewrite <- Zlt_Qlt.
  apply Z.pow_pos_nonneg; lia.
Qed.

Lemma Qdiv_mul_cancel (a s : Q) : (0 < s -> a / s * s == a)%Q.
Proof. intros H. field. lra. Qed.

(** Rounding to [k] decimals never crosses a value that has at most [k]
    decimals itself. *)
Lemma py_round_lower (a : Z) (q : Q) (k : nat) :
  (inject_Z a / inject_Z (10 ^ Z.of_nat k) <= q)%Q ->
  (inject_Z a / inject_Z (10 ^ Z.of_nat k) <= py_round q k)%Q.
Proof.
  intros H. unfold py_round.
  pose proof (scale_pos k) as Hs.
  set (s := inject_Z (10 ^ Z.of_nat k)) in *.
  assert (Ha : (inject_Z a <= q * s)%Q).
  { rewrite <- (Qdiv_mul_cancel (inject_Z a) s Hs).
    apply Qmult_le_compat_r; lra. }
  apply round_half_even_lower in Ha. rewrite Zle_Qle in Ha.
  apply Qle_shift_div_l; [exact Hs |].
  rewrite (Qdiv_mul_cancel (inject_Z a) s Hs). exact Ha.
Qed.

Lemma py_round_upper (a : Z) (q : Q) (k : nat) :
  (q <= inject_Z a / inject_Z (10 ^ Z.of_nat k))%Q ->
  (py_round q k <= inject_Z a / inject_Z (10 ^ Z.of_nat k))%Q.
Proof.
  intros H. unfold py_round.
  pose proof (scale_pos k) as Hs.
  set (s := inject_Z (10 ^ Z.of_nat k)) in *.
  assert (Ha : (q * s <= inject_Z a)%Q).
  { rewrite <- (Qdiv_mul_cancel (inject_Z a) s Hs).
    apply Qmult_le_compat_r; lra. }
  apply round_half_even_upper in Ha. rewrite Zle_Qle in Ha.
  apply Qle_shift_div_r; [exact Hs |].
  rewrite (Qdiv_mul_cancel (inject_Z a) s Hs). exact Ha.
Qed.

Lemma py_round_unit_interval (q : Q) (k : nat) :
  (0 <= q <= 1)%Q -> (0 <= py_round q k <= 1)%Q.
Proof.
  intros [H0 H1]. pose proof (scale_pos k) as Hs. split.
  - assert (E : (inject_Z 0 / inject_Z (10 ^ Z.of_nat k) == 0)%Q)
      by (field; lra).
    rewrite <- E. apply py_round_lower. rewrite E. exact H0.
  - assert (E : (inject_Z (10 ^ Z.of_nat k) / inject_Z (10 ^ Z.of_nat k) == 1)%Q)
      by (field; lra).
    rewrite <- E. apply py_round_upper. rewrite E. exact H1.
Qed.

Lemma py_round_half (q : Q) : ((1 # 2) <= q -> (1 # 2) <= py_round q 4)%Q.
Proof.
  intros H.
  assert (E : (inject_Z 5000 / inject_Z (10 ^ Z.of_nat 4) == 1 # 2)%Q)
    by reflexivity.
  rewrite <- E. apply py_round_lower. rewrite E. exact H.
Qed.

Lemma py_round_nonneg (q : Q) (k : nat) : (0 <= q -> 0 <= py_round q k)%Q.
Proof.
  intros H0. pose proof (scale_pos k) as Hs.
  assert (E : (inject_Z 0 / inject_Z (10 ^ Z.of_nat k) == 0)%Q)
    by (field; lra).
  rewrite <- E. apply py_round_lower. rewrite E. exact H0.
Qed.

(** ** Reasoning about draws *)

Lemma bind_Ok {A B} (m : M A) (f : A -> M B) g b g' :
  bind m f g = (Ok b, g') ->
  exists a g1, m g = (Ok a, g1) /\ f a g1 = (Ok b, g').
Proof.
  unfold bind. destruct (m g) as [[a | e] g1]; [eauto | discriminate].
Qed.

Lemma ret_Ok {A} (a b : A) g g' : ret a g = (Ok b, g') -> a = b /\ g = g'.
Proof. unfold ret. intros H. now inversion H. Qed.

(** Split a successful run of [x <- m ;; k] into its two halves, or read
    off the value of a [ret]. *)
Ltac step H :=
  let a := fresh "v" in
  let g1 := fresh "g" in
  let H1 := fresh "D" in
  apply bind_Ok in H as (a & g1 & H1 & H).

Ltac finish H :=
  let E := fresh "E" in
  apply ret_Ok in H as [E <-]; try subst.

Lemma next_word_Ok g w g' :
  next_word g = (Ok w, g') -> w = tape g (pos g) /\ g' = advance g.
Proof. unfold next_word. intros H. now inversion H. Qed.

Lemma random_random_Ok g u g' :
  random_random g = (Ok u, g') -> (0 <= u < 1)%Q /\ g' = advance g.
Proof.
  unfold random_random. intros H. step H.
  apply next_word_Ok in D as [-> ->]. apply ret_Ok in H as [<- <-].
  split; [| reflexivity].
  assert (Hb : (tape g (pos g) mod N.pos two53 < N.pos two53)%N)
    by (apply N.mod_upper_bound; discriminate).
  unfold Qle, Qlt. simpl.
  set (x := (tape g (pos g) mod N.pos two53)%N) in *. clearbody x.
  unfold two53 in *. split; lia.
Qed.

Lemma random_choice_Ok {A} (seq : list A) g x g' :
  random_choice seq g = (Ok x, g') -> x ∈ seq /\ g' = advance g.
Proof.
  unfold random_choice. destruct seq as [| y seq']; [discriminate |].
  intros H. step H. apply next_word_Ok in D as [-> ->].
  apply ret_Ok in H as [<- <-]. split; [| reflexivity].
  set (k := (N.to_nat (tape g (pos g)) mod length (y :: seq'))%nat).
  destruct ((y :: seq') !! k) as [z |] eqn:E; simpl.
  - eapply list_elem_of_lookup_2. exact E.
  - apply lookup_ge_None in E.
    assert (k < length (y :: seq'))%nat
      by (apply Nat.mod_upper_bound; simpl; lia).
    lia.
Qed.

Lemma random_choice_total {A} (seq : list A) g :
  seq <> [] -> exists x, random_choice seq g = (Ok x, advance g).
Proof.
  destruct seq as [| y seq']; [congruence |]. intros _.
  unfold random_choice, bind, next_word, ret. eauto.
Qed.

Lemma np_random_lognormal_Ok median sigma g a g' :
  np_random_lognormal median sigma g = (Ok a, g') -> (0 < a)%Q.
Proof.
  unfold np_random_lognormal. intros H. step H. step H.
  apply ret_Ok in H as [<- _]. unfold Qlt. simpl. lia.
Qed.

Lemma np_random_beta_Ok a b g x g' :
  np_random_beta a b g = (Ok x, g') -> (0 < x < 1)%Q.
Proof.
  unfold np_random_beta. intros H. step H. step H.
  apply ret_Ok in H as [<- _]. unfold Qlt. simpl.
  match goal with
  | |- context [N.succ_pos ?n] => pose proof (N.succ_pos_spec n)
  end.
  split; lia.
Qed.

Lemma dict_get_Ok {V} (d : list (string * V)) key g v g' :
  dict_get d key g = (Ok v, g') -> dict_lookup d key = Some v /\ g' = g.
Proof.
  unfold dict_get. destruct (dict_lookup d key); [| discriminate].
  intros H. apply ret_Ok in H as [<- <-]. auto.
Qed.

(** ** The scorer stays in the unit interval *)

Lemma scorer_range amount t location category risk is_fraud g p g' :
  _calculate_fraud_probability amount t location category risk is_fraud g
    = (Ok p, g') ->
  (0 <= p <= 1)%Q /\ (is_fraud = true -> (1 # 2) <= p)%Q.
Proof.
  unfold _calculate_fraud_probability. intros H.
  step H. step H. apply ret_Ok in H as [<- _].
  match goal with
  | |- context [py_max 0 (py_min 1 ?x)] => set (raw := x)
  end.
  assert (Hc : (0 <= py_max 0 (py_min 1 raw) <= 1)%Q).
  { split; [apply py_max_lower_l |].
    apply py_max_upper; [lra | apply py_min_upper_l]. }
  destruct is_fraud.
  - split; [split |].
    + eapply Qle_trans; [| apply py_max_lower_r]. lra.
    + apply py_max_upper; lra.
    + intros _. apply py_max_lower_r.
  - split; [exact Hc | discriminate].
Qed.

(** ** One pass of the loop body *)

Section SynthesizerFacts.

Variables (users : list User.t) (cards : list Card.t)
          (merchants : list Merchant.t).
Variable n_transactions : Z.
Variables start_date end_date : option Z.
Variable now : Z.

Local Abbreviation attempt_ :=
  (attempt users cards merchants start_date end_date now).
Local Abbreviation while_loop_ :=
  (while_loop users cards merchants n_transactions start_date end_date now).

Local Abbreviation well_formed_ := (well_formed users cards merchants).
Local Abbreviation counters_ok_ := (counters_ok n_transactions).

Lemma attempt_inv st g st' g' :
  attempt_ st g = (Ok st', g') ->
  st' = st \/
  exists txn,
    well_formed_ txn /\
    Txn.seconds_since_prev_tx txn = gap_from (last_tx_time_by_card st) txn /\
    st' = accept st txn.
Proof.
  unfold attempt. intros H. step H.
  apply random_choice_Ok in D as [Huser _].
  destruct (List.filter (eligible v) cards) as [| c0 cs] eqn:Hf.
  { left. apply ret_Ok in H as [<- _]. reflexivity. }
  right. rewrite <- Hf in H.
  step H. apply random_choice_Ok in D as [Hcard _].
  apply list_elem_of_In, filter_In in Hcard as [Hcard Hel].
  apply list_elem_of_In in Hcard.
  unfold eligible in Hel. apply andb_true_iff in Hel as [Hown Hact].
  apply String.eqb_eq in Hown.
  step H. apply random_choice_Ok in D as [Hmerchant _].
  do 3 step H.
  match goal with
  | _ : context [Qgtb (user_fraud_rate ?b ?r ?t ?c) ?u] |- _ =>
      set (fraud := Qgtb (user_fraud_rate b r t c) u) in *; clearbody fraud
  end.
  step H.
  match goal with
  | Da : (if fraud then _ else _) _ = (Ok ?a, _) |- _ =>
      assert (Hamount : (0 < a)%Q);
      [ destruct fraud; step Da; apply ret_Ok in Da as [<- _];
        (apply py_min_pos; [eapply np_random_lognormal_Ok; eassumption
                           | reflexivity])
      | clear Da ]
  end.
  do 5 step H.
  match goal with
  | Dp : _calculate_fraud_probability _ _ _ _ _ _ _ = _ |- _ =>
      apply scorer_range in Dp as [Hp Hfl]
  end.
  do 3 step H. apply ret_Ok in H as [<- _].
  eexists. split; [| split]; cycle 2.
  { unfold accept. f_equal. }
  - constructor; simpl.
    + eauto.
    + eexists. eauto.
    + eauto.
    + apply py_round_unit_interval. exact Hp.
    + intros Hfr. apply py_round_half. auto.
    + apply py_round_nonneg. lra.
  - unfold gap_from. simpl.
    match goal with
    | |- context [last_tx_time_by_card st !! ?k] =>
        destruct (last_tx_time_by_card st !! k)
    end; reflexivity.
Qed.

(** ** The loop *)

Local Abbreviation loop_cond_ := (loop_cond n_transactions).

Lemma attempt_counters st g st' g' :
  attempt_ st g = (Ok st', g') ->
  attempts st' = attempts st /\
  (i st' = i st /\ transactions st' = transactions st \/
   i st' = i st + 1 /\
   length (transactions st') = S (length (transactions st))).
Proof.
  intros H. apply attempt_inv in H as [-> | (txn & _ & _ & ->)].
  - auto.
  - simpl. split; [reflexivity | right]. split; [reflexivity |].
    rewrite length_app. simpl. lia.
Qed.

(** A property kept by every pass holds when the loop is left, whether
    through its condition or through an exception. *)
Lemma while_loop_invariant (P : LoopState -> Prop) :
  (forall st, P st -> loop_cond_ st = true -> P (count_attempt st)) ->
  (forall st g st' g',
      P st -> loop_cond_ st = true ->
      attempt_ (count_attempt st) g = (Ok st', g') -> P st') ->
  forall fuel st g r,
    P st -> while_loop_ fuel st g = Some r -> P (run_state r).
Proof.
  intros Hcount Hpass fuel.
  induction fuel as [| fuel IH]; intros st g r HP Hrun; simpl in Hrun;
    destruct (loop_cond_ st) eqn:Hc; try discriminate;
    try (inversion Hrun; subst; exact HP).
  destruct (attempt_ (count_attempt st) g) as [[st' | e] g'] eqn:Ha.
  - eapply IH; [| exact Hrun]. eapply Hpass; eassumption.
  - inversion Hrun; subst; simpl. apply Hcount; assumption.
Qed.

(** Leaving the loop without an exception means its condition failed. *)
Lemma while_loop_exit fuel st g r :
  while_loop_ fuel st g = Some r ->
  run_exn r = None -> loop_cond_ (run_state r) = false.
Proof.
  revert st g.
  induction fuel as [| fuel IH]; intros st g Hrun Hexn; simpl in Hrun;
    destruct (loop_cond_ st) eqn:Hc; try discriminate;
    try (inversion Hrun; subst; exact Hc).
  destruct (attempt_ (count_attempt st) g) as [[st' | e] g'] eqn:Ha.
  - eapply IH; eassumption.
  - inversion Hrun; subst. discriminate.
Qed.

(** The passes still allowed bound the fuel the loop needs. *)
Lemma while_loop_terminates fuel st g :
  (Z.to_nat (n_transactions * 3 - attempts st) <= fuel)%nat ->
  exists r, while_loop_ fuel st g = Some r.
Proof.
  revert st g.
  induction fuel as [| fuel IH]; intros st g Hfuel; simpl;
    destruct (loop_cond_ st) eqn:Hc; eauto.
  - unfold loop_cond in Hc. apply andb_true_iff in Hc as [_ Hc].
    apply Z.ltb_lt in Hc. lia.
  - unfold loop_cond in Hc. apply andb_true_iff in Hc as [_ Hc].
    apply Z.ltb_lt in Hc.
    destruct (attempt_ (count_attempt st) g) as [[st' | e] g'] eqn:Ha; eauto.
    apply IH. apply attempt_counters in Ha as [-> _]. simpl. lia.
Qed.

(** More fuel than needed changes nothing. *)
Lemma while_loop_fuel_mono fuel fuel' st g r :
  while_loop_ fuel st g = Some r -> (fuel <= fuel')%nat ->
  while_loop_ fuel' st g = Some r.
Proof.
  revert fuel' st g.
  induction fuel as [| fuel IH]; intros fuel' st g Hrun Hle; simpl in Hrun.
  - destruct (loop_cond_ st) eqn:Hc; [discriminate |].
    destruct fuel'; simpl; rewrite Hc; exact Hrun.
  - destruct fuel' as [| fuel']; [lia |]. simpl.
    destruct (loop_cond_ st); [| exact Hrun].
    destruct (attempt_ (count_attempt st) g) as [[st' | e] g'];
      [| exact Hrun].
    apply IH; [exact Hrun | lia].
Qed.

Lemma counters_ok_run fuel g r :
  while_loop_ fuel initial_state g = Some r -> counters_ok_ (run_state r).
Proof.
  apply (while_loop_invariant counters_ok_).
  - intros st (Hi & Ha & Hn) Hc. unfold loop_cond in Hc.
    apply andb_true_iff in Hc as [_ Hc]. apply Z.ltb_lt in Hc.
    unfold counters_ok. simpl. lia.
  - intros st g0 st' g' (Hi & Ha & Hn) Hc Hpass. unfold loop_cond in Hc.
    apply andb_true_iff in Hc as [Hc1 Hc2].
    apply Z.ltb_lt in Hc1. apply Z.ltb_lt in Hc2.
    apply attempt_counters in Hpass as [Hat Hcases].
    unfold counters_ok. simpl in *. rewrite Hat.
    destruct Hcases as [[-> ->] | [-> ->]]; lia.
  - unfold counters_ok. simpl. lia.
Qed.

(** Every accepted transaction is well formed. *)
Lemma well_formed_run fuel g r :
  while_loop_ fuel initial_state g = Some r ->
  Forall well_formed_ (transactions (run_state r)).
Proof.
  apply (while_loop_invariant (fun st => Forall well_formed_ (transactions st))).
  - intros st H _. exact H.
  - intros st g0 st' g' H _ Hpass.
    apply attempt_inv in Hpass as [-> | (txn & Hwf & _ & ->)]; [exact H |].
    simpl. apply Forall_app. split; [exact H |].
    constructor; [exact Hwf | constructor].
  - constructor.
Qed.

End SynthesizerFacts.

(** ** Identifiers that are unique in a pool name one record *)

Lemma NoDup_key_inj {A} (f : A -> string) (l : list A) (x y : A) :
  NoDup (map f l) -> x ∈ l -> y ∈ l -> f x = f y -> x = y.
Proof.
  induction l as [| a l IH]; simpl; intros Hnd Hx Hy Hxy.
  - inversion Hx.
  - apply NoDup_cons in Hnd as [Hna Hnd].
    apply elem_of_cons in Hx as [-> | Hx];
      apply elem_of_cons in Hy as [-> | Hy]; auto.
    + exfalso. apply Hna. rewrite Hxy.
      apply list_elem_of_In, in_map, list_elem_of_In. exact Hy.
    + exfalso. apply Hna. rewrite <- Hxy.
      apply list_elem_of_In, in_map, list_elem_of_In. exact Hx.
Qed.

(** ** Draws that cannot fail *)

Lemma succeeds_ret {A} (a : A) (P : A -> Prop) : P a -> succeeds (ret a) P.
Proof. intros H g. exists a, g. auto. Qed.

Lemma succeeds_bind {A B} (m : M A) (f : A -> M B) (P : A -> Prop)
    (Q : B -> Prop) :
  succeeds m P -> (forall a, P a -> succeeds (f a) Q) -> succeeds (bind m f) Q.
Proof.
  intros Hm Hf g. destruct (Hm g) as (a & g1 & Hrun & Ha).
  destruct (Hf a Ha g1) as (b & g2 & Hrun2 & Hb).
  exists b, g2. unfold bind. rewrite Hrun. auto.
Qed.

Lemma succeeds_next_word : succeeds next_word (fun _ => True).
Proof. intros g. eexists _, _. split; [reflexivity | exact I]. Qed.

Lemma succeeds_random_random : succeeds random_random (fun _ => True).
Proof.
  apply (succeeds_bind _ _ _ _ succeeds_next_word).
  intros w _. now apply succeeds_ret.
Qed.

Lemma succeeds_random_choice {A} (seq : list A) :
  seq <> [] -> succeeds (random_choice seq) (fun x => x ∈ seq).
Proof.
  intros Hne g. destruct (random_choice_total seq g Hne) as [x Hx].
  exists x, (advance g). split; [exact Hx |].
  apply random_choice_Ok in Hx as [Hin _]. exact Hin.
Qed.

Lemma succeeds_random_randint (a b : Z) :
  a <= b -> succeeds (random_randint a b) (fun _ => True).
Proof.
  intros Hab. unfold random_randint.
  destruct (b <? a) eqn:E; [apply Z.ltb_lt in E; lia |].
  apply (succeeds_bind _ _ _ _ succeeds_next_word).
  intros w _. now apply succeeds_ret.
Qed.

Lemma succeeds_fake_date_time_between (start_date end_date : Z) :
  succeeds (fake_date_time_between start_date end_date) (fun _ => True).
Proof.
  unfold fake_date_time_between. cbv zeta.
  apply (succeeds_bind _ _ (fun _ => True) _).
  { destruct (_ <=? 1); [| unfold random_uniform];
      apply (succeeds_bind _ _ _ _ succeeds_random_random);
      intros u _; now apply succeeds_ret. }
  intros ts _. now apply succeeds_ret.
Qed.

Lemma succeeds_np_random_lognormal (median sigma : Q) :
  succeeds (np_random_lognormal median sigma) (fun _ => True).
Proof.
  apply (succeeds_bind _ _ _ _ succeeds_next_word). intros n _.
  apply (succeeds_bind _ _ _ _ succeeds_next_word). intros d _.
  now apply succeeds_ret.
Qed.

Lemma succeeds_fake_coordinate (bound : Z) :
  succeeds (fake_coordinate bound) (fun _ => True).
Proof.
  apply (succeeds_bind _ _ _ _ succeeds_next_word).
  intros w _. now apply succeeds_ret.
Qed.

Lemma succeeds_dict_get {V} (d : list (string * V)) (key : string) :
  is_Some (dict_lookup d key) -> succeeds (dict_get d key) (fun _ => True).
Proof.
  intros [v Hv]. unfold dict_get. rewrite Hv. now apply succeeds_ret.
Qed.

Lemma succeeds_scorer amount t location category risk is_fraud :
  is_Some (dict_lookup merchant_categories category) ->
  succeeds (_calculate_fraud_probability
              amount t location category risk is_fraud) (fun _ => True).
Proof.
  intros Hcat. unfold _calculate_fraud_probability.
  apply (succeeds_bind _ _ _ _ (succeeds_dict_get _ _ Hcat)). intros info _.
  unfold random_uniform.
  apply (succeeds_bind _ _ (fun _ => True) _).
  { apply (succeeds_bind _ _ _ _ succeeds_random_random).
    intros u _. now apply succeeds_ret. }
  intros noise _. now apply succeeds_ret.
Qed.

(** On well-formed pools a pass of the loop body never raises. *)
Lemma succeeds_attempt users cards merchants start_date end_date now st :
  pools_ok users merchants (window_start start_date now)
           (window_end end_date now) ->
  succeeds (attempt users cards merchants start_date end_date now st)
           (fun _ => True).
Proof.
  intros (Husers & Hmerchants & Hcats & Hwindow). unfold attempt.
  apply (succeeds_bind _ _ _ _ (succeeds_random_choice users Husers)).
  intros user _.
  destruct (List.filter (eligible user) cards) as [| c cs] eqn:Hf;
    [now apply succeeds_ret |].
  rewrite <- Hf.
  apply (succeeds_bind _ _ (fun _ => True) _).
  { intros g. destruct (succeeds_random_choice
                          (List.filter (eligible user) cards)) with (g := g)
      as (x & g' & Hx & _); [rewrite Hf; discriminate | eauto]. }
  intros card _.
  apply (succeeds_bind _ _ _ _ (succeeds_random_choice merchants Hmerchants)).
  intros merchant Hmerchant. specialize (Hcats merchant Hmerchant).
  apply (succeeds_bind _ _ _ _
           (succeeds_fake_date_time_between _ _)).
  intros t _.
  apply (succeeds_bind _ _ _ _ (succeeds_dict_get _ _ Hcats)).
  intros info _.
  apply (succeeds_bind _ _ _ _ succeeds_random_random). intros u _.
  set (fraud := Qgtb _ u). clearbody fraud.
  apply (succeeds_bind _ _ (fun _ => True) _).
  { destruct fraud;
      apply (succeeds_bind _ _ _ _ (succeeds_np_random_lognormal _ _));
      intros a _; now apply succeeds_ret. }
  intros amount _.
  apply (succeeds_bind _ _ (fun _ => True) _).
  { destruct fraud; [| now apply succeeds_ret].
    apply (succeeds_bind _ _ _ _ succeeds_random_random).
    intros v _. now apply succeeds_ret. }
  intros high _.
  apply (succeeds_bind _ _ (fun _ => True) _).
  { intros g.
    destruct high;
      [destruct (succeeds_random_choice high_risk_locations) with (g := g)
         as (x & g' & Hx & _)
      | destruct (succeeds_random_choice normal_locations) with (g := g)
         as (x & g' & Hx & _)];
      try discriminate; eauto. }
  intros location _.
  apply (succeeds_bind _ _ (fun _ => True) _).
  { intros g.
    destruct (succeeds_random_choice device_types) with (g := g)
      as (x & g' & Hx & _); [discriminate | eauto]. }
  intros device_type _.
  apply (succeeds_bind _ _ _ _ (succeeds_random_randint 1000 9999 ltac:(lia))).
  intros device_number _.
  apply (succeeds_bind _ _ _ _ (succeeds_scorer _ _ _ _ _ _ Hcats)).
  intros p _.
  apply (succeeds_bind _ _ _ _ (succeeds_fake_coordinate 90)). intros lat _.
  apply (succeeds_bind _ _ _ _ (succeeds_fake_coordinate 180)). intros lon _.
  apply (succeeds_bind _ _ (fun _ => True) _).
  { intros g.
    destruct (succeeds_random_choice
                ["mobile_app"; "web_portal"; "pos_terminal"; "api"]%string)
      with (g := g) as (x & g' & Hx & _); [discriminate | eauto]. }
  intros source _. now apply succeeds_ret.
Qed.

Lemma while_loop_no_raise
    users cards merchants n_transactions start_date end_date now fuel st g r :
  pools_ok users merchants (window_start start_date now)
           (window_end end_date now) ->
  while_loop users cards merchants n_transactions start_date end_date now
             fuel st g = Some r ->
  run_exn r = None.
Proof.
  intros Hok. revert st g.
  induction fuel as [| fuel IH]; intros st g Hrun; simpl in Hrun;
    destruct (loop_cond n_transactions st); try discriminate;
    try (injection Hrun as <-; reflexivity).
  destruct (succeeds_attempt users cards merchants start_date end_date now
              (count_attempt st) Hok g) as (st' & g' & Ha & _).
  rewrite Ha in Hrun. eapply IH. exact Hrun.
Qed.

(** ** A run of [generate_transactions] *)

(** The run exists, its counters are within bounds, and without an
    escaped exception the loop condition is false at the end. *)
Lemma generation_loop_facts
    users cards merchants n_transactions start_date end_date now g :
  exists r,
    generate_transactions users cards merchants n_transactions
                          start_date end_date now g = Some r /\
    counters_ok n_transactions (run_state r) /\
    (run_exn r = None -> loop_cond n_transactions (run_state r) = false).
Proof.
  unfold generate_transactions, generate_transactions_run.
  destruct (while_loop_terminates users cards merchants n_transactions
              start_date end_date now
              (Z.to_nat (n_transactions * 3)) initial_state g) as [r Hrun].
  { simpl. lia. }
  exists r. split; [exact Hrun |]. split.
  - eapply counters_ok_run. exact Hrun.
  - eapply while_loop_exit. exact Hrun.
Qed.

(** * The claims *)

(** C1. Every transaction the synthesizer emits names a card of the pool
    that is active and owned by the transaction's user.  Such a card
    always exists; when card identifiers are unique in the pool, it is
    the card the identifier resolves to. *)
Theorem card_reference_integrity
    users cards merchants n_transactions start_date end_date now g r :
  generate_transactions users cards merchants n_transactions
                        start_date end_date now g = Some r ->
  forall txn, txn ∈ transactions (run_state r) ->
    (exists card, card ∈ cards /\
       Card.card_id card = Txn.card_id txn /\
       Card.is_active card = true /\
       Card.user_id card = Txn.user_id txn) /\
    (NoDup (map Card.card_id cards) ->
     forall card, card ∈ cards ->
       Card.card_id card = Txn.card_id txn ->
       Card.is_active card = true /\ Card.user_id card = Txn.user_id txn).
Proof.
  intros Hrun txn Hin.
  apply well_formed_run in Hrun.
  rewrite Forall_forall in Hrun. apply Hrun in Hin as [_ Hcard _ _ _ _].
  split; [exact Hcard |].
  destruct Hcard as (c & Hc & Hid & Hact & Hown).
  intros Hnd card Hcard Hsame.
  assert (card = c) as ->; [| auto].
  eapply NoDup_key_inj; eauto. congruence.
Qed.

Lemma card_reference_integrity_witness :
  exists r txn card,
    generate_transactions [alice] [card_of alice true] [shop true] 1
                          day_start day_end 0 (rng_of []) = Some r /\
    transactions (run_state r) = [txn] /\
    card ∈ [card_of alice true] /\
    Card.card_id card = Txn.card_id txn /\
    Card.is_active card = true /\
    Card.user_id card = Txn.user_id txn.
Proof.
  edestruct (card_reference_integrity
               [alice] [card_of alice true] [shop true] 1
               day_start day_end 0 (rng_of [])) as [(card & H) _].
  - vm_compute. reflexivity.
  - simpl. apply list_elem_of_here.
  - eexists _, _, card. split; [vm_compute; reflexivity |].
    split; [reflexivity | exact H].
Defined.

(** C2. The scorer returns a value in [[0, 1]]; so is the value stored
    in the record after rounding to four decimals, and the stored value
    is at least 0.5 whenever the fraud label is set. *)
Theorem fraud_probability_bounds :
  (forall amount transaction_time location merchant_category
          user_risk_score is_fraud g p g',
      _calculate_fraud_probability
        amount transaction_time location merchant_category
        user_risk_score is_fraud g = (Ok p, g') ->
      (0 <= p <= 1)%Q /\
      (0 <= py_round p 4 <= 1)%Q /\
      (is_fraud = true -> (1 # 2) <= py_round p 4)%Q) /\
  (forall users cards merchants n_transactions start_date end_date now g r,
      generate_transactions users cards merchants n_transactions
                            start_date end_date now g = Some r ->
      forall txn, txn ∈ transactions (run_state r) ->
        (0 <= Txn.fraud_probability txn <= 1)%Q /\
        (Txn.is_fraud txn = true ->
         (1 # 2) <= Txn.fraud_probability txn)%Q).
Proof.
  split.
  - intros amount t location category risk is_fraud g p g' H.
    apply scorer_range in H as [Hp Hfl].
    split; [exact Hp |]. split.
    + apply py_round_unit_interval. exact Hp.
    + intros Hf. apply py_round_half. auto.
  - intros users cards merchants n sd ed now g r Hrun txn Hin.
    apply well_formed_run in Hrun.
    rewrite Forall_forall in Hrun.
    apply Hrun in Hin as [_ _ _ Hp Hfl _]. auto.
Qed.

Lemma fraud_probability_bounds_witness :
  (0 <= py_round (13 # 100) 4 <= 1)%Q /\
  exists txn,
    Txn.is_fraud txn = true /\
    ((1 # 2) <= Txn.fraud_probability txn)%Q.
Proof.
  split.
  - edestruct (proj1 fraud_probability_bounds
                 100%Q 0 "Austin, TX"%string "grocery"%string (1 # 5)%Q false
                 (rng_of [])) as (_ & H & _).
    + vm_compute. reflexivity.
    + split; [apply Qle_bool_iff | apply Qle_bool_iff];
        vm_compute; reflexivity.
  - edestruct (proj2 fraud_probability_bounds
                 [alice] [card_of alice true] [shop true] 1
                 day_start day_end 0 (rng_of [])) as [_ H].
    + vm_compute. reflexivity.
    + simpl. apply list_elem_of_here.
    + eexists. split; [| apply H]; reflexivity.
Defined.



(** ** Gaps between transactions on one card *)

Lemma previous_on_card_snoc earlier txn card_id :
  previous_on_card (earlier ++ [txn]) card_id =
  if String.eqb (Txn.card_id txn) card_id then Some txn
  else previous_on_card earlier card_id.
Proof.
  unfold previous_on_card. rewrite rev_unit. reflexivity.
Qed.

Lemma find_all_false {A} (f : A -> bool) (l : list A) :
  (forall x, x ∈ l -> f x = false) -> List.find f l = None.
Proof.
  induction l as [| a l IH]; intros H; simpl; [reflexivity |].
  rewrite (H a) by apply list_elem_of_here.
  apply IH. intros x Hx. apply H. now apply list_elem_of_further.
Qed.

Lemma previous_on_card_none earlier card_id :
  previous_on_card earlier card_id = None <->
  (forall t, t ∈ earlier -> Txn.card_id t <> card_id).
Proof.
  unfold previous_on_card. split.
  - intros H t Ht Heq.
    apply list_elem_of_In, in_rev in Ht.
    eapply find_none in H; [| exact Ht]. simpl in H.
    apply String.eqb_neq in H. auto.
  - intros H. apply find_all_false. intros t Ht.
    apply String.eqb_neq. apply H.
    apply list_elem_of_In, in_rev, list_elem_of_In. exact Ht.
Qed.

Lemma previous_on_card_last before prev between card_id :
  Txn.card_id prev = card_id ->
  (forall t, t ∈ between -> Txn.card_id t <> card_id) ->
  previous_on_card (before ++ prev :: between) card_id = Some prev.
Proof.
  intros Hprev Hbetween.
  induction between as [| b between IH] using rev_ind.
  - rewrite previous_on_card_snoc.
    apply String.eqb_eq in Hprev. now rewrite Hprev.
  - replace (before ++ prev :: between ++ [b])
      with ((before ++ prev :: between) ++ [b])
      by (rewrite <- app_assoc; reflexivity).
    rewrite previous_on_card_snoc.
    assert (Hb : Txn.card_id b <> card_id).
    { apply Hbetween. apply elem_of_app. right. apply list_elem_of_here. }
    apply String.eqb_neq in Hb. rewrite Hb.
    apply IH. intros t Ht. apply Hbetween. apply elem_of_app. now left.
Qed.

Lemma gaps_ok_accept st txn :
  gaps_ok st ->
  Txn.seconds_since_prev_tx txn = gap_from (last_tx_time_by_card st) txn ->
  gaps_ok (accept st txn).
Proof.
  intros [Hlast Hgaps] Hgap. split; simpl.
  - intros card_id. rewrite previous_on_card_snoc.
    destruct (String.eqb_spec (Txn.card_id txn) card_id) as [<- | Hne].
    + rewrite lookup_insert_eq. reflexivity.
    + rewrite lookup_insert_ne by exact Hne. apply Hlast.
  - intros earlier t later Hsplit.
    destruct later as [| x later _] using rev_ind.
    + apply app_inj_tail in Hsplit as [<- <-].
      rewrite Hgap. unfold gap_from. rewrite Hlast.
      destruct (previous_on_card (transactions st) (Txn.card_id txn));
        reflexivity.
    + apply (Hgaps earlier t later).
      replace (earlier ++ t :: later ++ [x])
        with ((earlier ++ t :: later) ++ [x]) in Hsplit
        by (rewrite <- app_assoc; reflexivity).
      apply app_inj_tail in Hsplit as [Hsplit _]. exact Hsplit.
Qed.

Lemma gaps_ok_run
    users cards merchants n_transactions start_date end_date now fuel g r :
  while_loop users cards merchants n_transactions start_date end_date now
             fuel initial_state g = Some r ->
  gaps_ok (run_state r).
Proof.
  apply (while_loop_invariant users cards merchants n_transactions
           start_date end_date now gaps_ok).
  - intros st H _. exact H.
  - intros st g0 st' g' H _ Hpass.
    apply attempt_inv in Hpass as [-> | (txn & _ & Hgap & ->)]; [exact H |].
    apply gaps_ok_accept; assumption.
  - split.
    + intros card_id. simpl. apply lookup_empty.
    + intros earlier txn later Hsplit. simpl in Hsplit.
      destruct earlier; discriminate.
Qed.

(** C4, as amended.  In the list the synthesizer accepts, a transaction
    has no [seconds_since_prev_tx] exactly when no earlier transaction
    in generation order is on the same card; otherwise the field holds
    its timestamp minus the timestamp of the latest earlier transaction
    on that card.  Nothing makes that difference non-negative. *)
Theorem seconds_since_prev_tx_is_generation_gap
    users cards merchants n_transactions start_date end_date now g r
    earlier txn later :
  generate_transactions users cards merchants n_transactions
                        start_date end_date now g = Some r ->
  transactions (run_state r) = earlier ++ txn :: later ->
  (Txn.seconds_since_prev_tx txn = None <->
   forall t, t ∈ earlier -> Txn.card_id t <> Txn.card_id txn) /\
  (forall before prev between,
      earlier = before ++ prev :: between ->
      Txn.card_id prev = Txn.card_id txn ->
      (forall t, t ∈ between -> Txn.card_id t <> Txn.card_id txn) ->
      Txn.seconds_since_prev_tx txn =
      Some (total_seconds
              (Txn.transaction_time txn - Txn.transaction_time prev))).
Proof.
  intros Hrun Hsplit.
  apply gaps_ok_run in Hrun as [_ Hgaps].
  specialize (Hgaps earlier txn later Hsplit).
  split.
  - rewrite Hgaps, <- previous_on_card_none.
    destruct (previous_on_card earlier (Txn.card_id txn)); simpl;
      split; congruence.
  - intros before prev between -> Hprev Hbetween.
    rewrite Hgaps, (previous_on_card_last before prev between) by assumption.
    reflexivity.
Qed.

Lemma seconds_since_prev_tx_is_generation_gap_witness :
  exists first second,
    Txn.seconds_since_prev_tx first = None /\
    Txn.seconds_since_prev_tx second =
    Some (total_seconds (Txn.transaction_time second
                         - Txn.transaction_time first)).
Proof.
  edestruct (seconds_since_prev_tx_is_generation_gap
               [alice] [card_of alice true] [shop true] 2
               day_start day_end 0 (rng_of backwards_tape))
    as [Hnone _].
  { vm_compute. reflexivity. }
  { simpl. instantiate (3 := []). reflexivity. }
  edestruct (seconds_since_prev_tx_is_generation_gap
               [alice] [card_of alice true] [shop true] 2
               day_start day_end 0 (rng_of backwards_tape))
    as [_ Hsome].
  { vm_compute. reflexivity. }
  { simpl. instantiate (3 := [_]). reflexivity. }
  eexists _, _. split.
  - apply Hnone. intros t Ht. inversion Ht.
  - apply (Hsome [] _ []); [reflexivity | reflexivity |].
    intros t Ht. inversion Ht.
Defined.

(** C4 as stated fails on its sign: the second transaction on a card can
    carry an earlier timestamp than the first, and its gap is negative. *)
Lemma seconds_since_prev_tx_negative :
  exists r first second,
    generate_transactions [alice] [card_of alice true] [shop true] 2
                          day_start day_end 0 (rng_of backwards_tape)
    = Some r /\
    transactions (run_state r) = [first; second] /\
    Txn.card_id first = Txn.card_id second /\
    Txn.transaction_time first = 100000000 /\
    Txn.transaction_time second = 50000000 /\
    Txn.seconds_since_prev_tx second = Some (total_seconds (-50000000)) /\
    (total_seconds (-50000000) == -50)%Q /\
    (total_seconds (-50000000) < 0)%Q.
Proof.
  eexists _, _, _. split; [vm_compute; reflexivity |].
  simpl. repeat split; reflexivity.
Qed.

(** ** The alert deriver *)

(** C5. The deriver never fails; its alerts are, in order, one for each
    transaction whose fraud probability is strictly above 0.5 and for no
    other, and an alert is "high" exactly when that probability is
    strictly above 0.8, "medium" otherwise. *)
Theorem alerts_exactly_above_threshold (transactions : list Txn.t) (g : Rng) :
  exists alerts g',
    generate_fraud_alerts transactions g = (Ok alerts, g') /\
    Forall2
      (fun alert tx =>
         Alert.transaction_id alert = Txn.transaction_id tx /\
         Alert.fraud_probability alert = Txn.fraud_probability tx /\
         (Alert.risk_level alert = "high"%string <->
          (8 # 10 < Txn.fraud_probability tx)%Q) /\
         (Alert.risk_level alert = "medium"%string <->
          ~ (8 # 10 < Txn.fraud_probability tx)%Q))
      alerts
      (List.filter (fun tx => Qgtb (Txn.fraud_probability tx) (5 # 10))
                   transactions) /\
    (forall tx,
        tx ∈ List.filter (fun tx => Qgtb (Txn.fraud_probability tx) (5 # 10))
                         transactions <->
        tx ∈ transactions /\ (5 # 10 < Txn.fraud_probability tx)%Q).
Proof.
  assert (Hmem : forall tx,
             tx ∈ List.filter
                    (fun tx => Qgtb (Txn.fraud_probability tx) (5 # 10))
                    transactions <->
             tx ∈ transactions /\ (5 # 10 < Txn.fraud_probability tx)%Q).
  { intros tx. rewrite list_elem_of_In, filter_In, Qgtb_true, list_elem_of_In.
    reflexivity. }
  revert g.
  induction transactions as [| tx rest IH]; intros g.
  - exists [], g. split; [reflexivity |]. split; [constructor | exact Hmem].
  - assert (Hrest : forall tx,
               tx ∈ List.filter
                      (fun tx => Qgtb (Txn.fraud_probability tx) (5 # 10))
                      rest <->
               tx ∈ rest /\ (5 # 10 < Txn.fraud_probability tx)%Q).
    { intros t. rewrite list_elem_of_In, filter_In, Qgtb_true, list_elem_of_In.
      reflexivity. }
    change (generate_fraud_alerts (tx :: rest) g)
      with ((if Qgtb (Txn.fraud_probability tx) (5 # 10)
             then bind (random_choice ["pending"; "reviewed"; "resolved"]%string)
                       (fun status =>
                          bind (generate_fraud_alerts rest)
                               (fun alerts => ret (alert_of tx status :: alerts)))
             else generate_fraud_alerts rest) g).
    destruct (Qgtb (Txn.fraud_probability tx) (5 # 10)) eqn:Habove.
    + destruct (random_choice_total
                  ["pending"; "reviewed"; "resolved"]%string g)
        as [status Hstatus]; [discriminate |].
      destruct (IH Hrest (advance g)) as (alerts & g' & Hrun & Hall & _).
      eexists _, g'. unfold bind at 1. rewrite Hstatus.
      unfold bind at 1. rewrite Hrun. split; [reflexivity |].
      split; [| exact Hmem].
      cbn [List.filter]. rewrite Habove.
      constructor; [| exact Hall]. unfold alert_of. simpl.
      split; [reflexivity |]. split; [reflexivity |].
      unfold risk_level_of.
      destruct (Qgtb (Txn.fraud_probability tx) (8 # 10)) eqn:Hhigh.
      * apply Qgtb_true in Hhigh. split; split; auto; try discriminate.
        intros Hn. contradiction.
      * apply Qgtb_false in Hhigh. split; split; auto; try discriminate;
          intros; lra.
    + destruct (IH Hrest g) as (alerts & g' & Hrun & Hall & _).
      exists alerts, g'. split; [exact Hrun |]. split; [| exact Hmem].
      cbn [List.filter]. rewrite Habove. exact Hall.
Qed.

(** ** Back-references *)

(** C6, as amended.  Every transaction the synthesizer emits names a
    user, a card and a merchant that are present in their pools, and the
    card is active and owned by that user.  The [is_active] flags of the
    user and of the merchant are not consulted. *)
Theorem back_references_exist
    users cards merchants n_transactions start_date end_date now g r :
  generate_transactions users cards merchants n_transactions
                        start_date end_date now g = Some r ->
  forall txn, txn ∈ transactions (run_state r) ->
    (exists user, user ∈ users /\ Txn.user_id txn = User.user_id user) /\
    (exists card, card ∈ cards /\
       Card.card_id card = Txn.card_id txn /\
       Card.is_active card = true /\
       Card.user_id card = Txn.user_id txn) /\
    (exists merchant, merchant ∈ merchants /\
       Txn.merchant_id txn = Merchant.merchant_id merchant).
Proof.
  intros Hrun txn Hin.
  apply well_formed_run in Hrun.
  rewrite Forall_forall in Hrun.
  apply Hrun in Hin as [Huser Hcard Hmerchant _ _ _]. auto.
Qed.

Lemma back_references_exist_witness :
  exists txn,
    (exists user, user ∈ [dormant] /\ Txn.user_id txn = User.user_id user) /\
    (exists merchant, merchant ∈ [shop false] /\
       Txn.merchant_id txn = Merchant.merchant_id merchant).
Proof.
  edestruct (back_references_exist
               [dormant] [card_of dormant true] [shop false] 1
               day_start day_end 0 (rng_of [])) as (Hu & _ & Hm).
  - vm_compute. reflexivity.
  - simpl. apply list_elem_of_here.
  - eexists. split; [exact Hu | exact Hm].
Defined.

(** C6 as stated fails: pools that the generators themselves produce can
    hold a switched-off user with a live card and a switched-off
    merchant, and a transaction is emitted for them. *)
Lemma inactive_parties_are_referenced :
  exists user card merchant g1 g2 g3 r txn,
    generate_users 1 (rng_of inactive_parties_tape) = (Ok [user], g1) /\
    generate_cards [user] g1 = (Ok [card], g2) /\
    generate_merchants 1 g2 = (Ok [merchant], g3) /\
    generate_transactions [user] [card] [merchant] 1 None None clock g3
    = Some r /\
    returned r = Ok [txn] /\
    Txn.user_id txn = User.user_id user /\
    User.is_active user = false /\
    Txn.merchant_id txn = Merchant.merchant_id merchant /\
    Merchant.is_active merchant = false.
Proof.
  eexists _, _, _, _, _, _, _, _.
  split; [vm_compute; reflexivity |].
  split; [vm_compute; reflexivity |].
  split; [vm_compute; reflexivity |].
  split; [vm_compute; reflexivity |].
  split; [vm_compute; reflexivity |].
  repeat split; reflexivity.
Qed.

(** ** Degenerate pools *)

Lemma random_choice_Raise {A} (seq : list A) g e g' :
  random_choice seq g = (Raise e, g') -> e = IndexError /\ seq = [].
Proof.
  destruct seq as [| x seq']; simpl.
  - unfold raise. intros H. inversion H. auto.
  - unfold bind, next_word, ret. discriminate.
Qed.

Section DegeneratePools.

Variables (users : list User.t) (cards : list Card.t)
          (merchants : list Merchant.t).
Variable n_transactions : Z.
Variables start_date end_date : option Z.
Variable now : Z.

Local Abbreviation attempt_ :=
  (attempt users cards merchants start_date end_date now).
Local Abbreviation while_loop_ :=
  (while_loop users cards merchants n_transactions start_date end_date now).

(** Without an eligible card every pass is discarded. *)
Lemma attempt_discarded st g :
  users <> [] ->
  (forall user, user ∈ users -> List.filter (eligible user) cards = []) ->
  attempt_ st g = (Ok st, advance g).
Proof.
  intros Hne Hnone. unfold attempt.
  destruct (random_choice_total users g Hne) as [user Huser].
  unfold bind at 1. rewrite Huser.
  apply random_choice_Ok in Huser as [Hin _].
  rewrite (Hnone user Hin). reflexivity.
Qed.

Lemma discarded_loop fuel st g r :
  users <> [] ->
  (forall user, user ∈ users -> List.filter (eligible user) cards = []) ->
  while_loop_ fuel st g = Some r ->
  run_exn r = None /\ transactions (run_state r) = transactions st.
Proof.
  intros Hne Hnone. revert st g.
  induction fuel as [| fuel IH]; intros st g Hrun; simpl in Hrun;
    destruct (loop_cond n_transactions st); try discriminate;
    try (inversion Hrun; subst; auto).
  rewrite attempt_discarded in Hrun by assumption.
  apply IH in Hrun. exact Hrun.
Qed.

(** Without merchants a pass is discarded or dies on [IndexError]. *)
Lemma attempt_without_merchants st g :
  merchants = [] ->
  (exists g', attempt_ st g = (Ok st, g')) \/
  (exists g', attempt_ st g = (Raise IndexError, g')).
Proof.
  intros Hm. destruct (attempt_ st g) as [x g'] eqn:H.
  assert (x = Ok st \/ x = Raise IndexError) as [-> | ->];
    [| left; eauto | right; eauto].
  unfold attempt in H. rewrite Hm in H. unfold bind at 1 in H.
  destruct (random_choice users g) as [[user | e] g1] eqn:Huser.
  - destruct (List.filter (eligible user) cards) as [| c cs] eqn:Hf.
    + left. inversion H. reflexivity.
    + right. unfold random_choice, bind, next_word, ret, raise in H.
      inversion H. reflexivity.
  - right. apply random_choice_Raise in Huser as [-> _].
    inversion H. reflexivity.
Qed.

Lemma merchantless_loop fuel st g r :
  merchants = [] ->
  while_loop_ fuel st g = Some r ->
  transactions (run_state r) = transactions st /\
  (run_exn r = None \/
   run_exn r = Some IndexError /\ attempts st + 1 <= attempts (run_state r)).
Proof.
  intros Hm. revert st g.
  induction fuel as [| fuel IH]; intros st g Hrun; simpl in Hrun;
    destruct (loop_cond n_transactions st); try discriminate;
    try (injection Hrun as <-; simpl; auto).
  destruct (attempt_without_merchants (count_attempt st) g Hm)
    as [[g' Ha] | [g' Ha]]; rewrite Ha in Hrun.
  - apply IH in Hrun as [Htx Hexn]. simpl in *. split; [exact Htx |].
    destruct Hexn as [Hexn | [Hexn Hle]]; [now left | right].
    split; [exact Hexn | lia].
  - injection Hrun as <-. simpl. split; [reflexivity | right].
    split; [reflexivity | lia].
Qed.

End DegeneratePools.

(** C7, as amended.  Neither an empty merchant pool nor the absence of
    active cards is checked before the loop.  When the user pool is not
    empty and no user has an active card, every attempt is discarded: the
    loop uses its whole budget and the empty list is returned without an
    error.  When the merchant pool is empty, nothing is emitted, and the
    only error possible is the [IndexError] of a draw inside the loop,
    after at least one attempt was counted. *)
Theorem degenerate_pools_are_not_rejected
    users cards merchants n_transactions start_date end_date now g :
  exists r,
    generate_transactions users cards merchants n_transactions
                          start_date end_date now g = Some r /\
    (users <> [] ->
     (forall user, user ∈ users -> List.filter (eligible user) cards = []) ->
     returned r = Ok [] /\
     attempts (run_state r) = Z.max 0 (n_transactions * 3)) /\
    (merchants = [] ->
     transactions (run_state r) = [] /\
     (run_exn r = None \/
      run_exn r = Some IndexError /\ 1 <= attempts (run_state r))).
Proof.
  destruct (generation_loop_facts users cards merchants n_transactions
              start_date end_date now g)
    as (r & Hrun & Hcount & Hexit).
  exists r. split; [exact Hrun |].
  unfold generate_transactions, generate_transactions_run in Hrun. split.
  - intros Hne Hnone.
    destruct (discarded_loop _ _ _ _ _ _ _ _ _ _ _ Hne Hnone Hrun)
      as [Hexn Htx].
    simpl in Htx. unfold returned. rewrite Hexn, Htx.
    split; [reflexivity |].
    destruct Hcount as (Hi & Ha & Hn). rewrite Htx in Hi. simpl in Hi.
    specialize (Hexit Hexn). unfold loop_cond in Hexit.
    apply andb_false_iff in Hexit.
    destruct Hexit as [Hc | Hc]; apply Z.ltb_ge in Hc; lia.
  - intros Hm.
    destruct (merchantless_loop _ _ _ _ _ _ _ _ _ _ _ Hm Hrun)
      as [Htx Hexn].
    simpl in *. split; [exact Htx |].
    destruct Hexn as [Hexn | [Hexn Hle]]; [now left | right].
    split; [exact Hexn | lia].
Qed.

Lemma degenerate_pools_are_not_rejected_witness :
  exists r,
    generate_transactions [alice] [card_of alice false] [] 2
                          day_start day_end 0 (rng_of []) = Some r /\
    returned r = Ok [] /\
    attempts (run_state r) = 6 /\
    transactions (run_state r) = [].
Proof.
  destruct (degenerate_pools_are_not_rejected
              [alice] [card_of alice false] [] 2
              day_start day_end 0 (rng_of []))
    as (r & Hrun & Hnone & Hmerchants).
  exists r. split; [exact Hrun |].
  destruct Hnone as [Hret Hatt].
  - discriminate.
  - intros user Hin. apply list_elem_of_singleton in Hin as ->. reflexivity.
  - destruct (Hmerchants eq_refl) as [Htx _].
    split; [exact Hret |]. split; [exact Hatt | exact Htx].
Defined.

(** C7 as stated fails: with pools the generators produce, a single user
    whose only card is inactive makes the loop spend its six attempts
    and return the empty list; with no merchant at all and a live card,
    the error is an [IndexError] raised in the first pass. *)
Lemma degenerate_pools_enter_the_loop :
  exists user card merchant g1 g2 g3 r,
    generate_users 1 (rng_of inactive_card_tape) = (Ok [user], g1) /\
    generate_cards [user] g1 = (Ok [card], g2) /\
    generate_merchants 1 g2 = (Ok [merchant], g3) /\
    Card.is_active card = false /\
    generate_transactions [user] [card] [merchant] 2 None None clock g3
    = Some r /\
    returned r = Ok [] /\
    attempts (run_state r) = 6 /\
    exists r',
      generate_transactions [alice] [card_of alice true] [] 2
                            None None clock (rng_of []) = Some r' /\
      returned r' = Raise IndexError /\
      attempts (run_state r') = 1.
Proof.
  eexists _, _, _, _, _, _, _.
  split; [vm_compute; reflexivity |].
  split; [vm_compute; reflexivity |].
  split; [vm_compute; reflexivity |].
  split; [reflexivity |].
  split; [vm_compute; reflexivity |].
  split; [reflexivity |].
  split; [reflexivity |].
  eexists. split; [vm_compute; reflexivity |].
  split; reflexivity.
Qed.

(** ** The scorer and the random state *)

(** C8, as amended.  The scorer is not pure: besides its arguments it
    reads the next word of the global random state for its noise term.
    Two calls with identical arguments return the same result whenever
    the state yields the same next word, and a call on a known category
    leaves the state advanced by exactly one draw. *)
Theorem scorer_reads_one_draw
    amount transaction_time location merchant_category user_risk_score
    is_fraud g1 g2 :
  tape g1 (pos g1) = tape g2 (pos g2) ->
  fst (_calculate_fraud_probability
         amount transaction_time location merchant_category
         user_risk_score is_fraud g1)
  = fst (_calculate_fraud_probability
           amount transaction_time location merchant_category
           user_risk_score is_fraud g2) /\
  (is_Some (dict_lookup merchant_categories merchant_category) ->
   snd (_calculate_fraud_probability
          amount transaction_time location merchant_category
          user_risk_score is_fraud g1) = advance g1).
Proof.
  intros Hword.
  unfold _calculate_fraud_probability, dict_get.
  destruct (dict_lookup merchant_categories merchant_category) as [info |].
  - unfold random_uniform, random_random, bind, next_word, ret. simpl.
    rewrite Hword. auto.
  - unfold bind, raise. simpl. split; [reflexivity |].
    intros [info Hinfo]. discriminate.
Qed.

Lemma scorer_reads_one_draw_witness :
  fst (_calculate_fraud_probability
         100 0 "Austin, TX" "grocery" (1 # 5) false (rng_of []))
  = fst (_calculate_fraud_probability
           100 0 "Austin, TX" "grocery" (1 # 5) false (rng_of noise_tape)) /\
  snd (_calculate_fraud_probability
         100 0 "Austin, TX" "grocery" (1 # 5) false (rng_of []))
  = advance (rng_of []).
Proof.
  destruct (scorer_reads_one_draw
              100 0 "Austin, TX" "grocery" (1 # 5) false
              (rng_of []) (rng_of noise_tape)) as [Hsame Hstate].
  - reflexivity.
  - split; [exact Hsame |]. apply Hstate. eexists. reflexivity.
Defined.

(** C8 as stated fails: two successive calls with identical arguments
    return 0.13 and 0.23, and the random state has moved on. *)
Lemma scorer_is_not_pure :
  exists p1 g1 p2 g2,
    _calculate_fraud_probability
      100 0 "Austin, TX" "grocery" (1 # 5) false (rng_of noise_tape)
    = (Ok p1, g1) /\
    _calculate_fraud_probability
      100 0 "Austin, TX" "grocery" (1 # 5) false g1
    = (Ok p2, g2) /\
    (p1 == 13 # 100)%Q /\ (p2 == 23 # 100)%Q /\ ~ (p1 == p2)%Q /\
    pos g1 <> pos (rng_of noise_tape) /\ pos g2 <> pos g1.
Proof.
  eexists _, _, _, _.
  split; [vm_compute; reflexivity |].
  split; [vm_compute; reflexivity |].
  split; [reflexivity |]. split; [reflexivity |].
  split; [intros H; vm_compute in H; discriminate |].
  split; discriminate.
Qed.

(** ** The effective fraud rate *)

Lemma dict_lookup_In {V} (d : list (string * V)) key v :
  dict_lookup d key = Some v -> In (key, v) d.
Proof.
  induction d as [| [k w] d IH]; simpl; [discriminate |].
  destruct (String.eqb_spec k key) as [-> | _].
  - intros H. inversion H. now left.
  - intros H. right. auto.
Qed.

Lemma base_rates_bounded :
  List.Forall (fun kv => (0 < fraud_rate (snd kv) <= 15 # 100)%Q)
              merchant_categories.
Proof.
  unfold merchant_categories.
  repeat constructor; simpl; unfold Qlt, Qle; simpl; lia.
Qed.

(** C10. For a category of the risk model and a user risk score below 1,
    the effective fraud rate of a pass stays below 0.702, hence below 1,
    whatever the hour, the day and the merchant's city; a draw of
    [random.random()] at or above 0.702 gives the non-fraud label.  The
    base rates are at most 0.15, and with a non-negative risk score the
    rate is positive. *)
Theorem effective_fraud_rate_below_one
    merchant_category category_info risk_score transaction_time city :
  dict_lookup merchant_categories merchant_category = Some category_info ->
  (risk_score < 1)%Q ->
  (fraud_rate category_info <= 15 # 100)%Q /\
  (user_fraud_rate (fraud_rate category_info) risk_score transaction_time city
   < 702 # 1000)%Q /\
  (user_fraud_rate (fraud_rate category_info) risk_score transaction_time city
   < 1)%Q /\
  (forall u, (702 # 1000 <= u)%Q ->
     Qgtb (user_fraud_rate (fraud_rate category_info) risk_score
                           transaction_time city) u = false) /\
  ((0 <= risk_score)%Q ->
   (0 < user_fraud_rate (fraud_rate category_info) risk_score
                        transaction_time city)%Q).
Proof.
  intros Hcat Hrisk.
  apply dict_lookup_In in Hcat.
  pose proof base_rates_bounded as Hall.
  rewrite List.Forall_forall in Hall.
  apply Hall in Hcat. simpl in Hcat. destruct Hcat as [Hpos Hmax].
  set (base := fraud_rate category_info) in *.
  assert (Hx : (base * (1 + risk_score) < 3 # 10)%Q).
  { apply Qlt_le_trans with (base * 2)%Q; [| lra].
    apply Qmult_lt_l; [exact Hpos | lra]. }
  assert (Hx0 : (0 <= risk_score -> 0 < base * (1 + risk_score))%Q).
  { intros H0. apply Qmult_lt_0_compat; lra. }
  assert (Hrate :
    (user_fraud_rate base risk_score transaction_time city < 702 # 1000)%Q /\
    ((0 <= risk_score)%Q ->
     (0 < user_fraud_rate base risk_score transaction_time city)%Q)).
  { unfold user_fraud_rate.
    set (x := (base * (1 + risk_score))%Q) in *. clearbody x.
    repeat match goal with
           | |- context [if ?c then _ else _] => destruct c
           end;
      (split; [lra | intros H0; specialize (Hx0 H0); lra]). }
  destruct Hrate as [Hlt Hgt].
  split; [exact Hmax |]. split; [exact Hlt |]. split; [lra |].
  split; [| exact Hgt].
  intros u Hu. apply Qgtb_false. lra.
Qed.

Lemma effective_fraud_rate_below_one_witness :
  (user_fraud_rate (15 # 100) (999 # 1000) (days 2) "Miami" < 1)%Q.
Proof.
  destruct (effective_fraud_rate_below_one
              "money_transfer"
              {| fraud_rate := 15 # 100; avg_amount := 300 # 1 |}
              (999 # 1000) (days 2) "Miami") as (_ & _ & H & _).
  - reflexivity.
  - reflexivity.
  - exact H.
Defined.

(** ** The rewards roll-up *)

Lemma astype_int_nonneg (q : Q) : (0 <= q)%Q -> astype_int q = Qfloor q.
Proof.
  destruct q as [n d]. unfold Qle, astype_int, Qfloor. simpl. intros H.
  apply Z.quot_div_nonneg; lia.
Qed.

Lemma fold_left_Qplus_nonneg (l : list Q) (acc : Q) :
  (0 <= acc)%Q -> List.Forall (fun a => (0 <= a)%Q) l ->
  (0 <= fold_left Qplus l acc)%Q.
Proof.
  revert acc. induction l as [| a l IH]; intros acc Hacc Hall; simpl.
  - exact Hacc.
  - inversion Hall; subst. apply IH; [lra | assumption].
Qed.

Lemma sum_amounts_nonneg uid (transactions : list Txn.t) :
  (forall t, t ∈ transactions -> (0 <= Txn.amount t)%Q) ->
  (0 <= sum_amounts uid transactions)%Q.
Proof.
  intros H. unfold sum_amounts. apply fold_left_Qplus_nonneg; [lra |].
  apply List.Forall_forall. intros a Ha.
  apply in_map_iff in Ha as (t & <- & Ht).
  apply filter_In in Ht as [Ht _]. apply H, list_elem_of_In, Ht.
Qed.

Lemma groupby_sum_keys (transactions : list Txn.t) uid total :
  In (uid, total) (groupby_sum transactions) <->
  total = sum_amounts uid transactions /\
  exists t, t ∈ transactions /\ Txn.user_id t = uid.
Proof.
  unfold groupby_sum. rewrite in_map_iff.
  assert (Hkeys : forall k,
             In k (merge_sort string_le
                     (remove_dups (map Txn.user_id transactions))) <->
             exists t, t ∈ transactions /\ Txn.user_id t = k).
  { intros k. rewrite <- list_elem_of_In, merge_sort_Permutation,
      elem_of_remove_dups, list_elem_of_In, in_map_iff.
    split; intros (t & H1 & H2).
    - exists t. split; [apply list_elem_of_In |]; assumption.
    - exists t. split; [| apply list_elem_of_In]; assumption. }
  split.
  - intros (k & Hk & Hin). inversion Hk; subst.
    split; [reflexivity |]. apply Hkeys. exact Hin.
  - intros [-> Ht]. exists uid. split; [reflexivity |]. apply Hkeys. exact Ht.
Qed.

Lemma find_none_filter (users : list User.t) (uid : string) :
  (forall user, user ∈ users -> User.user_id user <> uid) ->
  List.filter (fun u => String.eqb (User.user_id u) uid) users = [].
Proof.
  induction users as [| u users IH]; intros H; simpl; [reflexivity |].
  assert (Hu : User.user_id u <> uid) by (apply H, list_elem_of_here).
  apply String.eqb_neq in Hu. rewrite Hu.
  apply IH. intros user Huser. apply H. now apply list_elem_of_further.
Qed.

Lemma merge_left_In {A} (left : list (string * A)) (users : list User.t)
    (row : string * A) (risk : option Q) :
  In (row, risk) (merge_left left users) <->
  In row left /\
  match risk with
  | Some x => exists user, user ∈ users /\
                User.user_id user = fst row /\ User.risk_score user = x
  | None => forall user, user ∈ users -> User.user_id user <> fst row
  end.
Proof.
  unfold merge_left. rewrite in_flat_map. split.
  - intros (row' & Hrow & Hin).
    destruct (List.filter
                (fun u => String.eqb (User.user_id u) (fst row')) users)
      as [| u us] eqn:Hf.
    + destruct Hin as [Heq | []]. inversion Heq; subst.
      split; [exact Hrow |]. intros user Huser Hid.
      assert (Hu : In user (List.filter
                (fun u => String.eqb (User.user_id u) (fst row)) users)).
      { apply filter_In. split; [apply list_elem_of_In, Huser |].
        apply String.eqb_eq, Hid. }
      rewrite Hf in Hu. destruct Hu.
    + rewrite <- Hf in Hin. apply in_map_iff in Hin as (user & Heq & Hu).
      inversion Heq; subst. split; [exact Hrow |].
      apply filter_In in Hu as [Hu Hid]. apply String.eqb_eq in Hid.
      exists user. split; [apply list_elem_of_In, Hu | auto].
  - intros [Hrow Hrisk]. exists row. split; [exact Hrow |].
    destruct risk as [x |].
    + destruct Hrisk as (user & Huser & Hid & <-).
      assert (Hu : In user (List.filter
                (fun u => String.eqb (User.user_id u) (fst row)) users)).
      { apply filter_In. split; [apply list_elem_of_In, Huser |].
        apply String.eqb_eq, Hid. }
      destruct (List.filter
                  (fun u => String.eqb (User.user_id u) (fst row)) users)
        as [| u us] eqn:Hf; [destruct Hu |].
      rewrite <- Hf. apply in_map_iff. exists user. split; [reflexivity |].
      rewrite Hf. exact Hu.
    + rewrite (find_none_filter users (fst row) Hrisk). now left.
Qed.

(** The generators supply what the roll-up assumes: risk scores
    strictly between 0 and 1 and non-negative amounts. *)
Lemma for_each_Forall {A B} (f : A -> M B) (P : B -> Prop) :
  (forall x g y g', f x g = (Ok y, g') -> P y) ->
  forall xs g ys g', for_each f xs g = (Ok ys, g') -> List.Forall P ys.
Proof.
  intros Hf xs.
  induction xs as [| x xs IH]; intros g ys g' H; simpl in H.
  - apply ret_Ok in H as [<- _]. constructor.
  - step H. step H. apply ret_Ok in H as [<- _].
    constructor; [eapply Hf | eapply IH]; eassumption.
Qed.

Lemma generated_users_risk_range n_users g users g' :
  generate_users n_users g = (Ok users, g') ->
  forall user, user ∈ users -> (0 < User.risk_score user < 1)%Q.
Proof.
  intros H user Hin. unfold generate_users in H.
  apply (for_each_Forall _ (fun u => (0 < User.risk_score u < 1)%Q)) in H.
  - rewrite List.Forall_forall in H. apply H, list_elem_of_In, Hin.
  - intros x g0 y g0' Hy. simpl in Hy. step Hy. step Hy.
    apply ret_Ok in Hy as [<- _]. simpl.
    eapply np_random_beta_Ok. eassumption.
Qed.

Lemma emitted_amounts_nonneg
    users cards merchants n_transactions start_date end_date now g r :
  generate_transactions users cards merchants n_transactions
                        start_date end_date now g = Some r ->
  forall txn, txn ∈ transactions (run_state r) -> (0 <= Txn.amount txn)%Q.
Proof.
  intros Hrun txn Hin. apply well_formed_run in Hrun.
  rewrite Forall_forall in Hrun. apply Hrun in Hin as [_ _ _ _ _ Ha].
  exact Ha.
Qed.

Lemma points_df_rows users (transactions : list Txn.t) rows :
  points_df users transactions = Ok rows ->
  forall row,
    row ∈ rows <->
    exists risk,
      In (PointsRow.user_id row,
          (PointsRow.total_spent row,
           astype_int (PointsRow.total_spent row / 10)), risk)
         (merge_left
            (map (fun r => (fst r, (snd r, astype_int (snd r / 10))))
                 (groupby_sum transactions)) users) /\
      PointsRow.points row =
      astype_int
        (inject_Z (astype_int (PointsRow.total_spent row / 10))
         + fillna (option_map (fun x => x * 10) risk) 0)%Q.
Proof.
  unfold points_df. destruct transactions as [| t0 rest]; [discriminate |].
  intros H. inversion H as [Hrows]. clear H Hrows. intros row.
  rewrite list_elem_of_In, in_map_iff. split.
  - intros ([[uid [total pts]] risk] & <- & Hin). simpl.
    assert (Hpts : pts = astype_int (total / 10)).
    { apply merge_left_In in Hin as [Hin _].
      apply in_map_iff in Hin as ([k s] & Heq & _).
      simpl in Heq. inversion Heq; subst. reflexivity. }
    subst pts. exists risk. split; [exact Hin | reflexivity].
  - intros (risk & Hin & Hpts).
    eexists. split; [| exact Hin]. simpl.
    destruct row as [uid total pts]. simpl in *. rewrite Hpts. reflexivity.
Qed.

(** *** Binary64 rounding *)

Lemma round_half_even_near (q : Q) :
  (q - (1 # 2) <= inject_Z (round_half_even q) <= q + (1 # 2))%Q.
Proof.
  unfold round_half_even.
  pose proof (Qfloor_le q) as Hlo. pose proof (Qlt_floor q) as Hhi.
  rewrite inject_Z_plus in Hhi. change (inject_Z 1) with 1%Q in Hhi.
  destruct (Qgtb (1 # 2) (q - inject_Z (Qfloor q))) eqn:E1.
  { apply Qgtb_true in E1. lra. }
  apply Qgtb_false in E1.
  destruct (Qgtb (q - inject_Z (Qfloor q)) (1 # 2)) eqn:E2.
  { apply Qgtb_true in E2. rewrite inject_Z_plus. change (inject_Z 1) with 1%Q. lra. }
  apply Qgtb_false in E2.
  destruct (Z.even (Qfloor q)); [lra |].
  rewrite inject_Z_plus. change (inject_Z 1) with 1%Q. lra.
Qed.

Lemma two_power (z : Z) : (0 < 2 ^ z)%Q.
Proof. apply Qpower_0_lt. reflexivity. Qed.

Lemma two_power_succ (z : Z) : (2 ^ (z + 1) == 2 * 2 ^ z)%Q.
Proof. rewrite Qpower_plus by discriminate. change (2 ^ 1)%Q with 2%Q. ring. Qed.

Lemma two_power_log2 (p : positive) :
  (2 ^ Z.log2 (Z.pos p) <= inject_Z (Z.pos p) < 2 ^ (Z.log2 (Z.pos p) + 1))%Q.
Proof.
  pose proof (Z.log2_spec (Z.pos p) ltac:(lia)) as [Hlo Hhi].
  pose proof (Z.log2_nonneg (Z.pos p)) as Hnn.
  change 2%Q with (inject_Z 2).
  rewrite <- !Zpower_Qpower by lia.
  rewrite <- Zle_Qle, <- Zlt_Qlt. replace (Z.succ (Z.log2 (Z.pos p))) with (Z.log2 (Z.pos p) + 1) in Hhi by lia. split; assumption.
Qed.

(** The binade of a positive rational brackets it. *)
Lemma binade_spec (q : Q) :
  (0 < q)%Q -> (2 ^ binade q <= q < 2 ^ (binade q + 1))%Q.
Proof.
  intros Hq. destruct q as [n d]. unfold Qlt in Hq. simpl in Hq.
  destruct n as [| n | n]; try lia. clear Hq.
  unfold binade. cbn [Qnum Qden].
  pose proof (two_power_log2 n) as [Hn1 Hn2].
  pose proof (two_power_log2 d) as [Hd1 Hd2].
  set (a := Z.log2 (Z.pos n)) in *. set (b := Z.log2 (Z.pos d)) in *.
  assert (Hq : (Z.pos n # d == inject_Z (Z.pos n) / inject_Z (Z.pos d))%Q).
  { rewrite Qmake_Qdiv. reflexivity. }
  assert (Hdpos : (0 < inject_Z (Z.pos d))%Q) by reflexivity.
  assert (Hsplit : (2 ^ a == 2 ^ (a - b) * 2 ^ b)%Q).
  { rewrite <- Qpower_plus by discriminate. replace (a - b + b) with a by lia. reflexivity. }
  pose proof (two_power (a - b)) as Hp. pose proof (two_power b) as Hpb.
  pose proof (two_power_succ a) as Hsa. pose proof (two_power_succ b) as Hsb.
  pose proof (two_power_succ (a - b)) as Hsab.
  pose proof (two_power_succ (a - b - 1)) as Hsab1.
  replace (a - b - 1 + 1) with (a - b) in * by lia.
  set (N := inject_Z (Z.pos n)) in *. set (D := inject_Z (Z.pos d)) in *.
  destruct (Qle_bool (2 ^ (a - b)) (Z.pos n # d)) eqn:E.
  - apply Qle_bool_iff in E. split; [exact E |].
    rewrite Hq. apply Qlt_shift_div_r; [exact Hdpos |].
    rewrite Hsab. rewrite Hsa, Hsplit in Hn2.
    set (x := (2 ^ (a - b))%Q) in *. set (y := (2 ^ b)%Q) in *.
    clearbody x y N D. nra.
  - assert (E' : (Z.pos n # d < 2 ^ (a - b))%Q).
    { apply Qnot_le_lt. intros H. apply Qle_bool_iff in H. congruence. }
    split; [| replace (a - b - 1 + 1) with (a - b) by lia; exact E'].
    rewrite Hq. apply Qle_shift_div_l; [exact Hdpos |].
    rewrite Hsplit, Hsab1 in Hn1. rewrite Hsb in Hd2.
    pose proof (two_power (a - b - 1)) as Hp1.
    set (x := (2 ^ (a - b - 1))%Q) in *. set (y := (2 ^ b)%Q) in *.
    clearbody x y N D. nra.
Qed.

(** What [b64] returns: for a non-zero [q] in the binade [e], an
    integer number of units in the last place of that binade (of the
    lowest one under gradual underflow), of at most 53 bits, within half
    a unit of [q]. *)
Lemma b64_nearest (q : Q) :
  ~ (q == 0)%Q ->
  exists e m : Z,
    (2 ^ e <= Qabs q < 2 ^ (e + 1))%Q /\
    Z.abs m <= 2 ^ 53 /\
    (b64 q == inject_Z m * 2 ^ (Z.max e (-1022) - 52))%Q /\
    (Qabs (b64 q - q) <= 2 ^ (Z.max e (-1022) - 52) / 2)%Q.
Proof.
  intros Hq. unfold b64. cbv zeta.
  destruct (Qeq_bool (Qred q) 0) eqn:E.
  { apply Qeq_bool_eq in E. rewrite Qred_correct in E. contradiction. }
  exists (binade (Qabs (Qred q))).
  set (e := binade (Qabs (Qred q))).
  set (ulp := (2 ^ (Z.max e (-1022) - 52))%Q).
  exists (round_half_even (Qred q / ulp)).
  assert (Hulp : (0 < ulp)%Q) by apply two_power.
  assert (Hbracket : (2 ^ e <= Qabs q < 2 ^ (e + 1))%Q).
  { assert (Hab : (Qabs q == Qabs (Qred q))%Q)
      by (rewrite Qred_correct; reflexivity).
    rewrite Hab. apply binade_spec.
    apply Qnot_le_lt. intros Hle.
    assert (Hz : (Qabs (Qred q) == 0)%Q).
    { apply Qle_antisym; [exact Hle | apply Qabs_nonneg]. }
    apply Hq. rewrite <- (Qred_correct q).
    pose proof (Qle_Qabs (Qred q)) as H1.
    pose proof (Qle_Qabs (- Qred q)) as H2. rewrite Qabs_opp in H2. lra. }
  assert (Hx : (Qred q / ulp * ulp == q)%Q).
  { rewrite <- (Qred_correct q) at 2. field. lra. }
  split; [exact Hbracket |]. split; [| split].
  - destruct Hbracket as [_ Hup].
    assert (Hcap : (2 ^ (e + 1) <= inject_Z (2 ^ 53) * ulp)%Q).
    { rewrite Zpower_Qpower by lia. change (inject_Z 2) with 2%Q. unfold ulp.
      rewrite <- Qpower_plus by discriminate.
      apply Qpower_le_compat_l; [lia | discriminate]. }
    assert (Hrange : (- inject_Z (2 ^ 53) <= Qred q / ulp
                      <= inject_Z (2 ^ 53))%Q).
    { assert (Habs : (Qabs q <= inject_Z (2 ^ 53) * ulp)%Q) by lra.
      apply Qabs_Qle_condition in Habs as [Hl Hr].
      split.
      - apply Qle_shift_div_l; [exact Hulp |]. rewrite Qred_correct.
        apply Qle_trans with (- (inject_Z (2 ^ 53) * ulp))%Q; [| exact Hl].
        apply Qle_lteq. right. ring.
      - apply Qle_shift_div_r; [exact Hulp |]. rewrite Qred_correct.
        exact Hr. }
    destruct Hrange as [Hl Hr].
    rewrite <- inject_Z_opp in Hl.
    apply round_half_even_lower in Hl. apply round_half_even_upper in Hr.
    lia.
  - apply Qred_correct.
  - rewrite Qred_correct.
    pose proof (round_half_even_near (Qred q / ulp)) as [Hlo Hhi].
    set (x := (Qred q / ulp)%Q) in *.
    set (m := inject_Z (round_half_even x)) in *.
    apply Qabs_Qle_condition.
    change (ulp / 2)%Q with (ulp * (1 # 2))%Q.
    clearbody x m ulp. split; nra.
Qed.

Lemma b64_comp (p q : Q) : (p == q)%Q -> b64 p = b64 q.
Proof.
  intros H. unfold b64. rewrite (Qred_complete p q H). reflexivity.
Qed.

Lemma b64_nonneg (q : Q) : (0 <= q)%Q -> (0 <= b64 q)%Q.
Proof.
  intros H. unfold b64. cbv zeta.
  destruct (Qeq_bool (Qred q) 0); [lra |].
  rewrite Qred_correct.
  set (ulp := (2 ^ _)%Q).
  assert (Hulp : (0 < ulp)%Q) by (apply Qpower_0_lt; reflexivity).
  apply Qmult_le_0_compat; [| lra].
  replace 0%Q with (inject_Z 0) by reflexivity. rewrite <- Zle_Qle.
  apply round_half_even_lower. change (inject_Z 0) with 0%Q.
  apply Qle_shift_div_l; [exact Hulp |]. rewrite Qred_correct. lra.
Qed.

Lemma float_sum_nonneg (column : list Q) :
  Forall (fun a => (0 <= a)%Q) column -> (0 <= float_sum column)%Q.
Proof.
  unfold float_sum. intros Hall.
  cut (forall acc, (0 <= acc)%Q -> (0 <= fold_left float_add column acc)%Q).
  { intros H. apply H. lra. }
  induction Hall as [| a column Ha Hall IH]; intros acc Hacc; simpl.
  - exact Hacc.
  - apply IH. apply b64_nonneg. lra.
Qed.

(** The rounding gives the floats Python prints for [0.1], for
    [0.1 + 0.2] and for [0.3 * 10], and breaks a tie towards the even
    significand. *)
Lemma b64_known_values :
  b64 (1 # 10) = 3602879701896397 # 36028797018963968 /\
  float_add (b64 (1 # 10)) (b64 (2 # 10))
  = 1351079888211149 # 4503599627370496 /\
  float_mul (b64 (3 # 10)) 10 = 3 # 1 /\
  b64 9007199254740993 = 9007199254740992 # 1 /\
  b64 9007199254740995 = 9007199254740996 # 1.
Proof. vm_compute. repeat split. Qed.

(** *** Rows of the binary64 roll-up *)

Lemma amounts_of_nonneg uid (transactions : list Txn.t) :
  (forall t, t ∈ transactions -> (0 <= Txn.amount t)%Q) ->
  Forall (fun a => (0 <= a)%Q) (amounts_of uid transactions).
Proof.
  intros H. apply List.Forall_forall. intros a Ha.
  apply in_map_iff in Ha as (t & <- & Ht).
  apply filter_In in Ht as [Ht _]. apply H, list_elem_of_In, Ht.
Qed.

Lemma groupby_column_sum_keys column_sum (transactions : list Txn.t) uid total :
  In (uid, total) (groupby_column_sum column_sum transactions) <->
  total = column_sum (amounts_of uid transactions) /\
  exists t, t ∈ transactions /\ Txn.user_id t = uid.
Proof.
  unfold groupby_column_sum. rewrite in_map_iff.
  assert (Hkeys : forall k,
             In k (merge_sort string_le
                     (remove_dups (map Txn.user_id transactions))) <->
             exists t, t ∈ transactions /\ Txn.user_id t = k).
  { intros k. rewrite <- list_elem_of_In, merge_sort_Permutation,
      elem_of_remove_dups, list_elem_of_In, in_map_iff.
    split; intros (t & H1 & H2).
    - exists t. split; [apply list_elem_of_In |]; assumption.
    - exists t. split; [| apply list_elem_of_In]; assumption. }
  split.
  - intros (k & Hk & Hin). inversion Hk; subst.
    split; [reflexivity |]. apply Hkeys. exact Hin.
  - intros [-> Ht]. exists uid. split; [reflexivity |]. apply Hkeys. exact Ht.
Qed.

Lemma points_df_binary64_rows
    column_sum users (transactions : list Txn.t) rows :
  points_df_binary64 column_sum users transactions = Ok rows ->
  forall row,
    row ∈ rows <->
    exists risk,
      In (PointsRow.user_id row,
          (PointsRow.total_spent row,
           astype_int (float_truediv (PointsRow.total_spent row) 10)), risk)
         (merge_left
            (map (fun r =>
                    (fst r, (snd r, astype_int (float_truediv (snd r) 10))))
                 (groupby_column_sum column_sum transactions)) users) /\
      PointsRow.points row =
      astype_int
        (float_add
           (float_of_int
              (astype_int (float_truediv (PointsRow.total_spent row) 10)))
           (fillna (option_map (fun x => float_mul x 10) risk) 0)).
Proof.
  unfold points_df_binary64.
  destruct transactions as [| t0 rest]; [discriminate |].
  intros H. inversion H as [Hrows]. clear H Hrows. intros row.
  rewrite list_elem_of_In, in_map_iff. split.
  - intros ([[uid [total pts]] risk] & <- & Hin). simpl.
    assert (Hpts : pts = astype_int (float_truediv total 10)).
    { apply merge_left_In in Hin as [Hin _].
      apply in_map_iff in Hin as ([k s] & Heq & _).
      simpl in Heq. inversion Heq; subst. reflexivity. }
    subst pts. exists risk. split; [exact Hin | reflexivity].
  - intros (risk & Hin & Hpts).
    eexists. split; [| exact Hin]. simpl.
    destruct row as [uid total pts]. simpl in *. rewrite Hpts. reflexivity.
Qed.



(** * Further properties of the code *)

(** ** Zero-padded numbers *)

Lemma pretty_N_go_head (x : N) (s : string) :
  (0 < x)%N ->
  exists c rest, pretty_N_go x s = String c rest /\ c <> "0"%char.
Proof.
  revert s. induction (N.lt_wf_0 x) as [x _ IH]. intros s Hx.
  rewrite pretty_N_go_step by exact Hx.
  destruct (N.eq_dec (x / 10)%N 0%N) as [Hz | Hnz].
  - rewrite Hz, pretty_N_go_0. eexists _, _. split; [reflexivity |].
    assert (Hlt : (x < 10)%N) by (apply N.div_small_iff in Hz; lia).
    rewrite N.mod_small by exact Hlt.
    assert (x = 1 \/ x = 2 \/ x = 3 \/ x = 4 \/ x = 5 \/ x = 6
            \/ x = 7 \/ x = 8 \/ x = 9)%N as Hcases by lia.
    repeat (destruct Hcases as [-> | Hcases]; [discriminate |]).
    subst x. discriminate.
  - apply IH; [apply N.div_lt; [exact Hx | reflexivity] |].
    apply N.neq_0_lt_0. exact Hnz.
Qed.

Lemma pretty_Z_head (n : Z) :
  0 < n -> exists c rest, pretty n = String c rest /\ c <> "0"%char.
Proof.
  destruct n as [| p | p]; try lia. intros _.
  unfold pretty, pretty_Z, pretty, pretty_positive, pretty, pretty_N.
  destruct (decide (N.pos p = 0%N)) as [H | _]; [discriminate |].
  apply pretty_N_go_head. lia.
Qed.

Lemma zeros_app_inj (k1 k2 : nat) (s1 s2 : string) c1 r1 c2 r2 :
  s1 = String c1 r1 -> c1 <> "0"%char ->
  s2 = String c2 r2 -> c2 <> "0"%char ->
  zeros k1 +:+ s1 = zeros k2 +:+ s2 -> s1 = s2.
Proof.
  intros -> H1 -> H2. revert k2.
  induction k1 as [| k1 IH]; intros [| k2]; simpl; intros H.
  - exact H.
  - inversion H. congruence.
  - inversion H. congruence.
  - inversion H. eauto.
Qed.

(** Distinct positive numbers print differently at any width. *)
Lemma fmt_d_inj (width : nat) (a b : Z) :
  0 < a -> 0 < b -> fmt_d width a = fmt_d width b -> a = b.
Proof.
  intros Ha Hb H. unfold fmt_d in H.
  destruct (pretty_Z_head a Ha) as (c1 & r1 & E1 & N1).
  destruct (pretty_Z_head b Hb) as (c2 & r2 & E2 & N2).
  apply (zeros_app_inj _ _ _ _ c1 r1 c2 r2) in H; try assumption.
  apply (inj pretty) in H. exact H.
Qed.

(** Records numbered [prefix ++ fmt (k + 1)] by position carry distinct
    identifiers. *)
Lemma NoDup_numbered {A} (f : A -> string) (prefix : string) (width : nat)
    (l : list A) :
  (forall k x, l !! k = Some x ->
     f x = prefix +:+ fmt_d width (Z.of_nat k + 1)) ->
  NoDup (map f l).
Proof.
  intros Hid. apply NoDup_alt. intros j k s Hj Hk.
  change (map f l) with (f <$> l) in Hj, Hk.
  rewrite list_lookup_fmap in Hj, Hk.
  destruct (l !! j) as [x |] eqn:Ex; [| discriminate].
  destruct (l !! k) as [y |] eqn:Ey; [| discriminate].
  simpl in Hj, Hk. inversion Hj as [Hx]. inversion Hk as [Hy].
  rewrite (Hid j x Ex) in Hx. rewrite (Hid k y Ey) in Hy.
  rewrite <- Hy in Hx. apply (inj (String.app prefix)) in Hx.
  apply fmt_d_inj in Hx; lia.
Qed.

(** ** More draws that cannot fail *)

Lemma succeeds_weaken {A} (m : M A) (P Q : A -> Prop) :
  succeeds m P -> (forall a, P a -> Q a) -> succeeds m Q.
Proof.
  intros Hm HPQ g. destruct (Hm g) as (a & g' & Hrun & Ha). eauto.
Qed.

Lemma succeeds_for_each {A B} (f : A -> M B) (P : A -> B -> Prop)
    (xs : list A) :
  (forall x, x ∈ xs -> succeeds (f x) (P x)) ->
  succeeds (for_each f xs) (Forall2 P xs).
Proof.
  induction xs as [| x xs IH]; intros Hf; simpl.
  - apply succeeds_ret. constructor.
  - apply (succeeds_bind _ _ (P x)); [apply Hf, list_elem_of_here |].
    intros y Hy.
    apply (succeeds_bind _ _ (Forall2 P xs)).
    + apply IH. intros z Hz. apply Hf. now apply list_elem_of_further.
    + intros ys Hys. apply succeeds_ret. now constructor.
Qed.

Lemma succeeds_next_text : succeeds next_text (fun _ => True).
Proof. intros g. eexists _, _. split; [reflexivity | exact I]. Qed.

Lemma succeeds_random_randint_range (a b : Z) :
  a <= b -> succeeds (random_randint a b) (fun n => a <= n <= b).
Proof.
  intros Hab. unfold random_randint.
  destruct (b <? a) eqn:E; [apply Z.ltb_lt in E; lia |].
  apply (succeeds_bind _ _ _ _ succeeds_next_word).
  intros w _. apply succeeds_ret.
  pose proof (Z.mod_pos_bound (Z.of_N w) (b - a + 1)). lia.
Qed.

Lemma succeeds_random_unit :
  succeeds random_random (fun u => (0 <= u < 1)%Q).
Proof.
  intros g. destruct (succeeds_random_random g) as (u & g' & Hu & _).
  exists u, g'. split; [exact Hu |].
  apply random_random_Ok in Hu as [Hu _]. exact Hu.
Qed.

Lemma succeeds_random_uniform (a b : Q) :
  (a <= b)%Q -> succeeds (random_uniform a b) (fun x => (a <= x <= b)%Q).
Proof.
  intros Hab. unfold random_uniform.
  apply (succeeds_bind _ _ _ _ succeeds_random_unit).
  intros u [Hu0 Hu1]. apply succeeds_ret.
  assert (H0 : (0 <= (b - a) * u)%Q) by (apply Qmult_le_0_compat; lra).
  assert (H1 : ((b - a) * u <= (b - a) * 1)%Q).
  { rewrite (Qmult_comm (b - a) u), (Qmult_comm (b - a) 1).
    apply Qmult_le_compat_r; lra. }
  lra.
Qed.

Lemma succeeds_np_random_beta (a b : Q) :
  succeeds (np_random_beta a b) (fun x => (0 < x < 1)%Q).
Proof.
  intros g.
  destruct (np_random_beta a b g) as [[x | e] g'] eqn:H.
  - exists x, g'. split; [reflexivity |]. eapply np_random_beta_Ok. exact H.
  - unfold np_random_beta, bind, next_word, ret in H. discriminate.
Qed.

Lemma succeeds_random_choices {A} (population : list A) (weights : list Q) :
  population <> [] ->
  succeeds (random_choices population weights) (fun x => x ∈ population).
Proof.
  destruct population as [| x rest]; [congruence |]. intros _.
  unfold random_choices.
  apply (succeeds_bind _ _ _ _ succeeds_random_random).
  intros u _. apply succeeds_ret.
  destruct ((x :: rest) !! _) as [y |] eqn:E; simpl.
  - eapply list_elem_of_lookup_2. exact E.
  - apply list_elem_of_here.
Qed.

Lemma dict_lookup_key {V} (d : list (string * V)) (key : string) :
  key ∈ map fst d -> is_Some (dict_lookup d key).
Proof.
  induction d as [| [k v] d IH]; simpl; intros H.
  - inversion H.
  - destruct (String.eqb_spec k key) as [-> | Hne]; [eauto |].
    apply IH. apply elem_of_cons in H as [H | H]; [congruence | exact H].
Qed.

Lemma lookup_range (n : Z) (k : nat) (x : Z) :
  range n !! k = Some x -> x = Z.of_nat k.
Proof.
  unfold range. intros H. apply lookup_seqZ in H as [-> _]. lia.
Qed.

(** ** The entity generators *)

Lemma generate_users_numbered (n_users : Z) (g : Rng) :
  exists users g',
    generate_users n_users g = (Ok users, g') /\
    Forall2 (fun (i : Z) (user : User.t) =>
               User.user_id user = "user_" +:+ fmt_d 5 (i + 1) /\
               (0 < User.risk_score user < 1)%Q)
            (range n_users) users.
Proof.
  apply (succeeds_for_each _ _ (range n_users)).
  intros i _.
  apply (succeeds_bind _ _ (fun _ => True)).
  { eapply succeeds_weaken;
      [apply succeeds_random_choice; discriminate | auto]. }
  intros active _.
  apply (succeeds_bind _ _ _ _ (succeeds_np_random_beta 2 5)).
  intros risk Hrisk. apply succeeds_ret. split; [reflexivity | exact Hrisk].
Qed.

(** X1. [generate_users] never fails and returns exactly [n_users] users
    (none for a negative count).  The user at position [k] is named
    [user_] followed by [k + 1] on five digits, its risk score lies
    strictly between 0 and 1, and no two users share an identifier. *)
Theorem generate_users_spec (n_users : Z) (g : Rng) :
  exists users g',
    generate_users n_users g = (Ok users, g') /\
    length users = Z.to_nat n_users /\
    (forall k user, users !! k = Some user ->
       User.user_id user = "user_" +:+ fmt_d 5 (Z.of_nat k + 1) /\
       (0 < User.risk_score user < 1)%Q) /\
    NoDup (map User.user_id users).
Proof.
  destruct (generate_users_numbered n_users g)
    as (users & g' & Hrun & Hall).
  exists users, g'. split; [exact Hrun |].
  assert (Hk : forall k user, users !! k = Some user ->
                 User.user_id user = "user_" +:+ fmt_d 5 (Z.of_nat k + 1) /\
                 (0 < User.risk_score user < 1)%Q).
  { intros k user Hu.
    destruct (Forall2_lookup_r _ _ _ _ _ Hall Hu) as (i & Hi & Hp).
    apply lookup_range in Hi as ->. exact Hp. }
  split; [| split; [exact Hk |]].
  - apply Forall2_length in Hall. rewrite <- Hall.
    unfold range. apply length_seqZ.
  - apply (NoDup_numbered _ "user_" 5). intros k x Hx. apply Hk, Hx.
Qed.

Lemma string_length_app (s t : string) :
  String.length (s +:+ t) = (String.length s + String.length t)%nat.
Proof. induction s as [| c s IH]; simpl; [reflexivity | now rewrite IH]. Qed.

Lemma string_app_inv_tail (s1 s2 t1 t2 : string) :
  s1 +:+ t1 = s2 +:+ t2 -> String.length t1 = String.length t2 ->
  s1 = s2 /\ t1 = t2.
Proof.
  revert s2. induction s1 as [| c s1 IH]; intros [| c' s2] H Hlen; simpl in H.
  - auto.
  - apply (f_equal String.length) in H.
    rewrite !string_length_app in H. simpl in H. lia.
  - apply (f_equal String.length) in H.
    rewrite !string_length_app in H. simpl in H. lia.
  - inversion H as [[Hc Hrest]]. apply IH in Hrest as [-> ->]; auto.
Qed.

Lemma card_suffix_length (c : Z) :
  0 <= c < 3 -> String.length ("_" +:+ fmt_d 2 (c + 1)) = 3%nat.
Proof.
  intros Hc. assert (c = 0 \/ c = 1 \/ c = 2) as [-> | [-> | ->]] by lia;
    reflexivity.
Qed.

(** A card identifier determines its owner and its number. *)
Lemma card_id_inj (u1 u2 : string) (c1 c2 : Z) :
  0 <= c1 < 3 -> 0 <= c2 < 3 ->
  "card_" +:+ u1 +:+ "_" +:+ fmt_d 2 (c1 + 1)
  = "card_" +:+ u2 +:+ "_" +:+ fmt_d 2 (c2 + 1) ->
  u1 = u2 /\ c1 = c2.
Proof.
  intros H1 H2 H. apply (inj (String.app "card_")) in H.
  apply string_app_inv_tail in H as [Hu Hc].
  - split; [exact Hu |]. apply (inj (String.app "_")) in Hc.
    apply fmt_d_inj in Hc; lia.
  - now rewrite !card_suffix_length.
Qed.

(** The cards of one user, as [generate_cards] lays them out. *)
Lemma generate_cards_shape (users : list User.t) (g : Rng) :
  exists per_user g',
    generate_cards users g = (Ok (concat per_user), g') /\
    Forall2
      (fun user cs =>
         (1 <= length cs <= 3)%nat /\
         forall j card, cs !! j = Some card -> issued user (Z.of_nat j) card)
      users per_user.
Proof.
  unfold generate_cards.
  set (body := fun user : User.t => _).
  destruct (succeeds_for_each body
              (fun user cs =>
                 (1 <= length cs <= 3)%nat /\
                 forall j card, cs !! j = Some card ->
                                issued user (Z.of_nat j) card)
              users) with (g := g) as (per_user & g' & Hrun & Hall).
  { intros user _. unfold body.
    apply (succeeds_bind _ _ (fun n => n ∈ [1; 2; 3])).
    { apply succeeds_random_choices. discriminate. }
    intros n Hn.
    eapply succeeds_weaken.
    { apply (succeeds_for_each _ (fun c card => issued user c card)).
      intros c _.
      apply (succeeds_bind _ _ _ _
               (succeeds_random_choice
                  [5000; 10000; 15000; 20000; 25000; 50000]
                  ltac:(discriminate))).
      intros limit Hlimit.
      apply (succeeds_bind _ _ _ _
               (succeeds_random_randint_range 1000 9999 ltac:(lia))).
      intros number Hnumber.
      apply (succeeds_bind _ _ _ _
               (succeeds_random_choice card_types ltac:(discriminate))).
      intros ctype Hctype.
      apply (succeeds_bind _ _ (fun _ => True)).
      { eapply succeeds_weaken;
          [apply succeeds_random_choice; discriminate | auto]. }
      intros issuer _.
      apply (succeeds_bind _ _ (fun _ => True)).
      { eapply succeeds_weaken;
          [apply succeeds_random_choice; discriminate | auto]. }
      intros active _.
      apply (succeeds_bind _ _ _ _
               (succeeds_random_uniform 0 (8 # 10) ltac:(lra))).
      intros u [Hu0 Hu1]. apply succeeds_ret.
      unfold issued. simpl.
      split; [reflexivity |]. split; [reflexivity |].
      split; [exact Hlimit |]. split; [| split; [exact Hctype | eauto]].
      assert (Hpos : (0 <= inject_Z limit)%Q).
      { replace 0%Q with (inject_Z 0) by reflexivity. rewrite <- Zle_Qle.
        repeat (apply elem_of_cons in Hlimit as [-> | Hlimit]; [lia |]).
        inversion Hlimit. }
      split.
      - apply py_round_nonneg. apply Qmult_le_0_compat; assumption.
      - assert (E : ((8 # 10) * inject_Z limit
                     == inject_Z (80 * limit) / inject_Z (10 ^ Z.of_nat 2))%Q).
        { change (10 ^ Z.of_nat 2) with 100.
          unfold Qeq, Qdiv, Qmult, Qinv. simpl. lia. }
        rewrite E. apply py_round_upper. rewrite <- E.
        apply Qmult_le_compat_r; assumption. }
    simpl. intros cs Hcs. split.
    - apply Forall2_length in Hcs. rewrite <- Hcs. unfold range.
      rewrite length_seqZ.
      repeat (apply elem_of_cons in Hn as [-> | Hn]; [simpl; lia |]).
      inversion Hn.
    - intros j card Hj.
      destruct (Forall2_lookup_r _ _ _ _ _ Hcs Hj) as (c & Hc & Hissued).
      apply lookup_range in Hc as ->. exact Hissued. }
  exists per_user, g'. split; [| exact Hall].
  unfold bind. rewrite Hrun. reflexivity.
Qed.

Lemma issued_in_concat (users : list User.t) (per_user : list (list Card.t)) :
  Forall2
    (fun user cs =>
       (1 <= length cs <= 3)%nat /\
       forall j card, cs !! j = Some card -> issued user (Z.of_nat j) card)
    users per_user ->
  forall card, card ∈ concat per_user ->
    exists user c, user ∈ users /\ 0 <= c < 3 /\ issued user c card.
Proof.
  induction 1 as [| user cs users per_user [Hlen Hcs] _ IH]; simpl;
    intros card Hin.
  - inversion Hin.
  - apply elem_of_app in Hin as [Hin | Hin].
    + apply list_elem_of_lookup in Hin as [j Hj].
      exists user, (Z.of_nat j). split; [apply list_elem_of_here |].
      split; [| apply Hcs, Hj].
      apply lookup_lt_Some in Hj. lia.
    + destruct (IH card Hin) as (u & c & Hu & Hc & Hi).
      exists u, c. split; [now apply list_elem_of_further | auto].
Qed.

(** X2. [generate_cards] never fails.  Every card it returns belongs to
    a user of the pool and is that user's card number 1, 2 or 3: its
    identifier is built from the owner's, its credit limit is one of the
    six tiers, its balance lies between 0 and 80% of the limit, and its
    number is four masked characters followed by four digits.  Every
    user gets a first card, and at most three cards. *)
Theorem generate_cards_spec (users : list User.t) (g : Rng) :
  exists cards g',
    generate_cards users g = (Ok cards, g') /\
    (forall card, card ∈ cards ->
       exists user c, user ∈ users /\ 0 <= c < 3 /\ issued user c card) /\
    (forall user, user ∈ users ->
       exists card, card ∈ cards /\ issued user 0 card) /\
    (length users <= length cards <= 3 * length users)%nat.
Proof.
  destruct (generate_cards_shape users g) as (per_user & g' & Hrun & Hall).
  exists (concat per_user), g'. split; [exact Hrun |].
  split; [apply issued_in_concat, Hall |].
  clear Hrun. induction Hall as [| user cs users per_user [Hlen Hcs] _ IH].
  - split; [intros user Hu; inversion Hu | simpl; lia].
  - destruct IH as [IHfirst IHlen]. simpl. split.
    + intros u Hu. apply elem_of_cons in Hu as [-> | Hu].
      * destruct cs as [| card cs]; [simpl in Hlen; lia |].
        exists card. split; [apply list_elem_of_here |].
        apply (Hcs 0%nat card). reflexivity.
      * destruct (IHfirst u Hu) as (card & Hcard & Hi).
        exists card. split; [| exact Hi].
        apply elem_of_app. now right.
    + rewrite length_app. lia.
Qed.

Lemma shaped_cards_unique (users : list User.t)
    (per_user : list (list Card.t)) :
  Forall2
    (fun user cs =>
       (1 <= length cs <= 3)%nat /\
       forall j card, cs !! j = Some card -> issued user (Z.of_nat j) card)
    users per_user ->
  NoDup (map User.user_id users) ->
  NoDup (map Card.card_id (concat per_user)).
Proof.
  intros Hall Hnd.
  induction Hall as [| user cs users per_user [Hlen Hcs] Hrest IH]; simpl.
  - constructor.
  - simpl in Hnd. apply NoDup_cons in Hnd as [Hfresh Hnd].
    rewrite map_app. apply NoDup_app. split; [| split; [| auto]].
    + apply NoDup_alt. intros j k s Hj Hk.
      change (map Card.card_id cs) with (Card.card_id <$> cs) in Hj, Hk.
      rewrite list_lookup_fmap in Hj, Hk.
      destruct (cs !! j) as [x |] eqn:Ex; [| discriminate].
      destruct (cs !! k) as [y |] eqn:Ey; [| discriminate].
      simpl in Hj, Hk. inversion Hj as [Hx]. inversion Hk as [Hy].
      pose proof (lookup_lt_Some _ _ _ Ex). pose proof (lookup_lt_Some _ _ _ Ey).
      destruct (Hcs j x Ex) as (_ & Hidx & _).
      destruct (Hcs k y Ey) as (_ & Hidy & _).
      rewrite Hidx in Hx. rewrite Hidy in Hy. rewrite <- Hy in Hx.
      apply card_id_inj in Hx as [_ Hx]; lia.
    + intros s Hs Hs'.
      apply list_elem_of_In, in_map_iff in Hs as (x & <- & Hx).
      apply list_elem_of_In, in_map_iff in Hs' as (y & Heq & Hy).
      apply list_elem_of_In, list_elem_of_lookup in Hx as [j Hj].
      pose proof (lookup_lt_Some _ _ _ Hj).
      destruct (Hcs j x Hj) as (_ & Hidx & _).
      apply list_elem_of_In in Hy.
      destruct (issued_in_concat _ _ Hrest y Hy)
        as (u & c & Hu & Hc & _ & Hidy & _).
      rewrite Hidx, Hidy in Heq.
      apply card_id_inj in Heq as [Heq _]; [| lia | lia].
      apply Hfresh. rewrite <- Heq.
      apply list_elem_of_In, in_map, list_elem_of_In. exact Hu.
Qed.

(** X3. When the users of the pool carry distinct identifiers, so do the
    cards [generate_cards] returns. *)
Theorem generate_cards_unique_ids (users : list User.t) (g : Rng) cards g' :
  generate_cards users g = (Ok cards, g') ->
  NoDup (map User.user_id users) ->
  NoDup (map Card.card_id cards).
Proof.
  destruct (generate_cards_shape users g) as (per_user & g0 & Hrun & Hall).
  rewrite Hrun. intros H Hnd. inversion H; subst cards g0.
  eapply shaped_cards_unique; eassumption.
Qed.

Lemma generate_cards_unique_ids_witness :
  exists cards g',
    generate_cards [alice; dormant] (rng_of []) = (Ok cards, g') /\
    NoDup (map Card.card_id cards).
Proof.
  destruct (generate_cards [alice; dormant] (rng_of []))
    as [[cards | e] g'] eqn:Hrun; [| vm_compute in Hrun; discriminate].
  exists cards, g'. split; [reflexivity |].
  apply (generate_cards_unique_ids [alice; dormant] (rng_of []) cards g' Hrun).
  apply (bool_decide_unpack _). vm_compute. reflexivity.
Defined.

Lemma generate_merchants_numbered (n_merchants : Z) (g : Rng) :
  exists merchants g',
    generate_merchants n_merchants g = (Ok merchants, g') /\
    Forall2 (fun (i : Z) (merchant : Merchant.t) =>
               Merchant.merchant_id merchant
               = "merchant_" +:+ fmt_d 5 (i + 1) /\
               is_Some (dict_lookup merchant_categories
                                    (Merchant.merchant_category merchant)) /\
               (exists code, 1000 <= code <= 9999 /\
                  Merchant.merchant_category_code merchant
                  = "MCC_" +:+ pretty code) /\
               (0 < Merchant.risk_score merchant < 1)%Q)
            (range n_merchants) merchants.
Proof.
  apply (succeeds_for_each _ _ (range n_merchants)).
  intros i _.
  apply (succeeds_bind _ _ _ _
           (succeeds_random_choice (map fst merchant_categories)
                                   ltac:(discriminate))).
  intros category Hcat.
  apply (succeeds_bind _ _ _ _ succeeds_next_text). intros name _.
  apply (succeeds_bind _ _ _ _
           (succeeds_random_randint_range 1000 9999 ltac:(lia))).
  intros code Hcode.
  apply (succeeds_bind _ _ _ _ succeeds_next_text). intros city _.
  apply (succeeds_bind _ _ (fun _ => True)).
  { eapply succeeds_weaken;
      [apply succeeds_random_choice; discriminate | auto]. }
  intros active _.
  apply (succeeds_bind _ _ _ _ (succeeds_np_random_beta 2 5)).
  intros risk Hrisk. apply succeeds_ret.
  cbn [Merchant.merchant_id Merchant.merchant_category
       Merchant.merchant_category_code Merchant.risk_score].
  split; [reflexivity |]. split; [apply dict_lookup_key, Hcat |].
  split; [eauto | exact Hrisk].
Qed.

(** X4. [generate_merchants] never fails and returns exactly
    [n_merchants] merchants.  The merchant at position [k] is named
    [merchant_] followed by [k + 1] on five digits, its category is a
    key of the risk model, its category code is a number from 1000 to
    9999 and its risk score lies strictly between 0 and 1; no two
    merchants share an identifier. *)
Theorem generate_merchants_spec (n_merchants : Z) (g : Rng) :
  exists merchants g',
    generate_merchants n_merchants g = (Ok merchants, g') /\
    length merchants = Z.to_nat n_merchants /\
    (forall k merchant, merchants !! k = Some merchant ->
       Merchant.merchant_id merchant
       = "merchant_" +:+ fmt_d 5 (Z.of_nat k + 1) /\
       is_Some (dict_lookup merchant_categories
                            (Merchant.merchant_category merchant)) /\
       (exists code, 1000 <= code <= 9999 /\
          Merchant.merchant_category_code merchant = "MCC_" +:+ pretty code) /\
       (0 < Merchant.risk_score merchant < 1)%Q) /\
    NoDup (map Merchant.merchant_id merchants).
Proof.
  destruct (generate_merchants_numbered n_merchants g)
    as (merchants & g' & Hrun & Hall).
  exists merchants, g'. split; [exact Hrun |].
  assert (Hk : forall k merchant, merchants !! k = Some merchant ->
                 Merchant.merchant_id merchant
                 = "merchant_" +:+ fmt_d 5 (Z.of_nat k + 1) /\
                 is_Some (dict_lookup merchant_categories
                            (Merchant.merchant_category merchant)) /\
                 (exists code, 1000 <= code <= 9999 /\
                    Merchant.merchant_category_code merchant
                    = "MCC_" +:+ pretty code) /\
                 (0 < Merchant.risk_score merchant < 1)%Q).
  { intros k merchant Hm.
    destruct (Forall2_lookup_r _ _ _ _ _ Hall Hm) as (i & Hi & Hp).
    apply lookup_range in Hi as ->. exact Hp. }
  split; [| split; [exact Hk |]].
  - apply Forall2_length in Hall. rewrite <- Hall.
    unfold range. apply length_seqZ.
  - apply (NoDup_numbered _ "merchant_" 5). intros k x Hx. apply Hk, Hx.
Qed.

(** ** What a pass writes into a transaction *)

(** [step] with a name for the first half. *)
Ltac step_as H D :=
  let a := fresh "v" in
  let g1 := fresh "g" in
  apply bind_Ok in H as (a & g1 & D & H).

Lemma random_randint_Ok (a b : Z) g n g' :
  random_randint a b g = (Ok n, g') -> a <= n <= b.
Proof.
  unfold random_randint. destruct (b <? a) eqn:E; [discriminate |].
  apply Z.ltb_ge in E. intros H. step H. apply ret_Ok in H as [<- _].
  pose proof (Z.mod_pos_bound (Z.of_N v) (b - a + 1)). lia.
Qed.

Lemma fake_date_time_between_Ok (start_date end_date : Z) g t g' :
  fake_date_time_between start_date end_date g = (Ok t, g') ->
  drawn_between start_date end_date t.
Proof.
  unfold fake_date_time_between, drawn_between. cbv zeta.
  set (s := datetime_to_timestamp start_date).
  set (e := datetime_to_timestamp end_date).
  intros H. step_as H Dts. apply ret_Ok in H as [<- _].
  assert (Hts : (inject_Z s <= v
                 <= inject_Z (if e - s <=? 1 then s + 1 else e))%Q).
  { destruct (e - s <=? 1) eqn:E.
    - step_as Dts Du. apply random_random_Ok in Du as [Hu _].
      apply ret_Ok in Dts as [<- _].
      rewrite inject_Z_plus. change (inject_Z 1) with 1%Q. lra.
    - apply Z.leb_gt in E. unfold random_uniform in Dts.
      step_as Dts Du. apply random_random_Ok in Du as [[Hu0 Hu1] _].
      apply ret_Ok in Dts as [<- _].
      assert (Hse : (inject_Z s <= inject_Z e)%Q)
        by (rewrite <- Zle_Qle; lia).
      assert (H0 : (0 <= (inject_Z e - inject_Z s) * v0)%Q)
        by (apply Qmult_le_0_compat; lra).
      assert (H1 : ((inject_Z e - inject_Z s) * v0
                    <= (inject_Z e - inject_Z s) * 1)%Q).
      { rewrite (Qmult_comm _ v0), (Qmult_comm _ 1).
        apply Qmult_le_compat_r; lra. }
      lra. }
  destruct Hts as [Hlo Hhi]. unfold timestamp_to_datetime. split.
  - apply round_half_even_lower. rewrite inject_Z_mult.
    apply Qmult_le_compat_r; [exact Hlo | discriminate].
  - apply round_half_even_upper. rewrite inject_Z_mult.
    apply Qmult_le_compat_r; [exact Hhi | discriminate].
Qed.

Lemma fake_coordinate_Ok (bound : Z) g x g' :
  0 <= bound ->
  fake_coordinate bound g = (Ok x, g') ->
  (inject_Z (- bound) <= x <= inject_Z bound)%Q.
Proof.
  intros Hb H. unfold fake_coordinate in H. step H.
  apply ret_Ok in H as [<- _].
  pose proof (Z.mod_pos_bound (Z.of_N v) (2 * bound * 1000000 + 1)).
  unfold Qle, inject_Z. simpl. split; lia.
Qed.

Lemma py_round_cap (q : Q) (cap : Z) :
  (q <= inject_Z cap)%Q -> (py_round q 2 <= inject_Z cap)%Q.
Proof.
  intros H.
  assert (E : (inject_Z cap
               == inject_Z (cap * 100) / inject_Z (10 ^ Z.of_nat 2))%Q).
  { change (10 ^ Z.of_nat 2) with 100.
    unfold Qeq, Qdiv, Qmult, Qinv. simpl. lia. }
  rewrite E. apply py_round_upper. rewrite <- E. exact H.
Qed.

Lemma py_round_range (q : Q) (k : nat) (lo hi : Z) :
  (inject_Z lo <= q <= inject_Z hi)%Q ->
  (inject_Z lo <= py_round q k <= inject_Z hi)%Q.
Proof.
  intros [Hlo Hhi]. pose proof (scale_pos k) as Hs.
  assert (E : forall z, (inject_Z z
               == inject_Z (z * 10 ^ Z.of_nat k)
                  / inject_Z (10 ^ Z.of_nat k))%Q).
  { intros z. rewrite inject_Z_mult. field. lra. }
  split.
  - rewrite (E lo). apply py_round_lower. rewrite <- (E lo). exact Hlo.
  - rewrite (E hi). apply py_round_upper. rewrite <- (E hi). exact Hhi.
Qed.

Section RecordedFacts.

Variables (users : list User.t) (cards : list Card.t)
          (merchants : list Merchant.t).
Variable n_transactions : Z.
Variables start_date end_date : option Z.
Variable now : Z.

Local Abbreviation attempt_ :=
  (attempt users cards merchants start_date end_date now).
Local Abbreviation recorded_ :=
  (recorded cards merchants (window_start start_date now)
            (window_end end_date now)).

(** A pass is discarded only for a user without an active card; an
    accepted pass assembles a transaction numbered after the count of
    accepted ones. *)
Lemma attempt_inv_recorded st g st' g' :
  attempt_ st g = (Ok st', g') ->
  (st' = st /\
   exists user, user ∈ users /\ List.filter (eligible user) cards = []) \/
  exists txn,
    recorded_ txn /\
    Txn.transaction_id txn = "txn_" +:+ fmt_d 7 (i st + 1) /\
    st' = accept st txn.
Proof.
  unfold attempt. intros H. step H.
  apply random_choice_Ok in D as [Huser _].
  destruct (List.filter (eligible v) cards) as [| c0 cs] eqn:Hf.
  { left. apply ret_Ok in H as [<- _]. eauto. }
  right. rewrite <- Hf in H.
  step_as H Dcard. apply random_choice_Ok in Dcard as [Hcard _].
  apply list_elem_of_In, filter_In in Hcard as [Hcard _].
  apply list_elem_of_In in Hcard.
  step_as H Dmer. apply random_choice_Ok in Dmer as [Hmerchant _].
  step_as H Dtime. apply fake_date_time_between_Ok in Dtime as Htime.
  step_as H Dcat. apply dict_get_Ok in Dcat as [Hcat _].
  step H.
  match goal with
  | _ : context [Qgtb (user_fraud_rate ?b ?r ?t ?c) ?u] |- _ =>
      set (fraud := Qgtb (user_fraud_rate b r t c) u) in *; clearbody fraud
  end.
  step H.
  match goal with
  | Da : (if fraud then _ else _) _ = (Ok ?a, _) |- _ =>
      assert (Hamount : (0 < a <= if fraud then 50000 else 5000)%Q);
      [ destruct fraud; step Da; apply ret_Ok in Da as [<- _];
        (split; [apply py_min_pos;
                   [eapply np_random_lognormal_Ok; eassumption | reflexivity]
                | rewrite Qle_minus_iff; unfold py_min;
                  match goal with
                  | |- context [Qgtb ?x ?y] =>
                      destruct (Qgtb x y) eqn:Ecap;
                      [| apply Qgtb_false in Ecap]
                  end; lra ])
      | clear Da ]
  end.
  step H.
  match goal with
  | Dh : (if fraud then _ else _) _ = (Ok ?h, _) |- _ =>
      assert (Hhigh : h = true -> fraud = true);
      [ destruct fraud; [auto |];
        apply ret_Ok in Dh as [<- _]; discriminate
      | clear Dh ]
  end.
  step H.
  match goal with
  | Dl : (if ?h then _ else _) _ = (Ok ?l, _) |- _ =>
      assert (Hloc : l ∈ (if fraud then high_risk_locations ++ normal_locations
                          else normal_locations));
      [ destruct h;
        [ rewrite (Hhigh eq_refl);
          apply random_choice_Ok in Dl as [Dl _];
          apply elem_of_app; now left
        | apply random_choice_Ok in Dl as [Dl _];
          destruct fraud; [apply elem_of_app; now right | exact Dl] ]
      | clear Dl ]
  end.
  step_as H Ddev. apply random_choice_Ok in Ddev as [Hdevice _].
  step_as H Dnum. apply random_randint_Ok in Dnum as Hnumber.
  step_as H Dscore. clear Dscore.
  step_as H Dlat. apply fake_coordinate_Ok in Dlat as Hlat; [| lia].
  step_as H Dlon. apply fake_coordinate_Ok in Dlon as Hlon; [| lia].
  step_as H Dsrc. apply random_choice_Ok in Dsrc as [Hsource _].
  apply ret_Ok in H as [<- _].
  eexists. split; [| split]; cycle 2.
  { unfold accept. f_equal. }
  - constructor; simpl.
    + eexists. eauto.
    + eexists. eauto.
    + eauto.
    + exact Htime.
    + reflexivity.
    + reflexivity.
    + split; [apply py_round_nonneg; lra |].
      destruct fraud; [apply (py_round_cap _ 50000) | apply (py_round_cap _ 5000)];
        apply Hamount.
    + exact Hloc.
    + exact Hdevice.
    + eauto.
    + exact Hsource.
    + apply (py_round_range _ 6 (-90) 90). exact Hlat.
    + apply (py_round_range _ 6 (-180) 180). exact Hlon.
  - reflexivity.
Qed.

End RecordedFacts.

Lemma recorded_run
    users cards merchants n_transactions start_date end_date now fuel g r :
  while_loop users cards merchants n_transactions start_date end_date now
             fuel initial_state g = Some r ->
  Forall (recorded cards merchants (window_start start_date now)
                   (window_end end_date now))
         (transactions (run_state r)) /\
  (forall k txn, transactions (run_state r) !! k = Some txn ->
     Txn.transaction_id txn = "txn_" +:+ fmt_d 7 (Z.of_nat k + 1)).
Proof.
  intros Hrun.
  cut (i (run_state r) = Z.of_nat (length (transactions (run_state r))) /\
       Forall (recorded cards merchants (window_start start_date now)
                        (window_end end_date now))
              (transactions (run_state r)) /\
       (forall k txn, transactions (run_state r) !! k = Some txn ->
          Txn.transaction_id txn = "txn_" +:+ fmt_d 7 (Z.of_nat k + 1))).
  { intros (_ & H1 & H2). auto. }
  revert Hrun.
  apply (while_loop_invariant users cards merchants n_transactions
           start_date end_date now
           (fun st =>
              i st = Z.of_nat (length (transactions st)) /\
              Forall (recorded cards merchants (window_start start_date now)
                               (window_end end_date now))
                     (transactions st) /\
              (forall k txn, transactions st !! k = Some txn ->
                 Txn.transaction_id txn
                 = "txn_" +:+ fmt_d 7 (Z.of_nat k + 1)))).
  - intros st H _. exact H.
  - intros st g0 st' g' (Hi & Hall & Hids) _ Hpass.
    apply attempt_inv_recorded in Hpass
      as [[-> _] | (txn & Hrec & Hid & ->)]; [auto |].
    simpl in *. split; [rewrite length_app; simpl; lia |]. split.
    + apply Forall_app. split; [exact Hall |].
      constructor; [exact Hrec | constructor].
    + intros k t Hk.
      destruct (decide (k < length (transactions st))%nat) as [Hlt | Hge].
      * rewrite lookup_app_l in Hk by exact Hlt. apply Hids, Hk.
      * rewrite lookup_app_r in Hk by lia.
        destruct (k - length (transactions st))%nat as [| m] eqn:Ek;
          [| destruct m; discriminate].
        simpl in Hk. inversion Hk; subst t.
        rewrite Hid. do 2 f_equal. lia.
  - simpl. split; [reflexivity |]. split; [constructor |].
    intros k txn Hk. discriminate.
Qed.

(** ** The emitted transactions *)

(** X5. Transaction identifiers count the accepted transactions, not
    the attempts: the transaction at position [k] of the result is named
    [txn_] followed by [k + 1] on seven digits, whatever was discarded
    in between, and no two transactions share an identifier. *)
Theorem transaction_ids_sequential
    users cards merchants n_transactions start_date end_date now g r :
  generate_transactions users cards merchants n_transactions
                        start_date end_date now g = Some r ->
  (forall k txn, transactions (run_state r) !! k = Some txn ->
     Txn.transaction_id txn = "txn_" +:+ fmt_d 7 (Z.of_nat k + 1)) /\
  NoDup (map Txn.transaction_id (transactions (run_state r))).
Proof.
  intros Hrun. apply recorded_run in Hrun as [_ Hids].
  split; [exact Hids |].
  apply (NoDup_numbered _ "txn_" 7). exact Hids.
Qed.

Lemma transaction_ids_sequential_witness :
  exists r,
    generate_transactions [alice] [card_of alice true] [shop true] 2
                          day_start day_end 0 (rng_of backwards_tape)
    = Some r /\
    map Txn.transaction_id (transactions (run_state r))
    = ["txn_0000001"; "txn_0000002"]%string /\
    NoDup (map Txn.transaction_id (transactions (run_state r))).
Proof.
  destruct (generate_transactions [alice] [card_of alice true] [shop true] 2
              day_start day_end 0 (rng_of backwards_tape))
    as [r |] eqn:Hrun; [| vm_compute in Hrun; discriminate].
  exists r. split; [reflexivity |].
  destruct (transaction_ids_sequential _ _ _ _ _ _ _ _ _ Hrun) as [_ Hnd].
  split; [| exact Hnd].
  vm_compute in Hrun. inversion Hrun. reflexivity.
Defined.

(** X6. The stored amount is never negative and never above the cap of
    its label: 50000 for a transaction labelled fraud, 5000 otherwise,
    rounding included. *)
Theorem amounts_capped
    users cards merchants n_transactions start_date end_date now g r :
  generate_transactions users cards merchants n_transactions
                        start_date end_date now g = Some r ->
  forall txn, txn ∈ transactions (run_state r) ->
    (0 <= Txn.amount txn)%Q /\
    (Txn.is_fraud txn = true -> Txn.amount txn <= 50000)%Q /\
    (Txn.is_fraud txn = false -> Txn.amount txn <= 5000)%Q.
Proof.
  intros Hrun txn Hin. apply recorded_run in Hrun as [Hall _].
  rewrite Forall_forall in Hall. apply Hall in Hin.
  destruct (rec_amount _ _ _ _ _ Hin) as [H0 Hcap].
  split; [exact H0 |].
  split; intros Hf; rewrite Hf in Hcap; exact Hcap.
Qed.

Lemma amounts_capped_witness :
  exists r txn,
    generate_transactions [alice] [card_of alice true] [shop true] 1
                          day_start day_end 0 (rng_of []) = Some r /\
    transactions (run_state r) = [txn] /\
    (0 <= Txn.amount txn <= 50000)%Q.
Proof.
  destruct (generate_transactions [alice] [card_of alice true] [shop true] 1
              day_start day_end 0 (rng_of []))
    as [r |] eqn:Hrun; [| vm_compute in Hrun; discriminate].
  assert (Htx : exists txn, transactions (run_state r) = [txn] /\
                            Txn.is_fraud txn = true).
  { vm_compute in Hrun. inversion Hrun. eexists. split; reflexivity. }
  destruct Htx as (txn & Htx & Hfraud).
  exists r, txn. split; [reflexivity |]. split; [exact Htx |].
  destruct (amounts_capped _ _ _ _ _ _ _ _ _ Hrun txn) as (H0 & Hcap & _).
  - rewrite Htx. apply list_elem_of_here.
  - split; [exact H0 | exact (Hcap Hfraud)].
Defined.

(** X7. The location follows the label: a transaction that is not
    labelled fraud is always placed in one of the normal locations, so a
    high-risk location is only ever seen on a transaction labelled
    fraud; every location is one of the eighteen configured ones. *)
Theorem locations_follow_label
    users cards merchants n_transactions start_date end_date now g r :
  generate_transactions users cards merchants n_transactions
                        start_date end_date now g = Some r ->
  forall txn, txn ∈ transactions (run_state r) ->
    Txn.location txn ∈ high_risk_locations ++ normal_locations /\
    (Txn.is_fraud txn = false -> Txn.location txn ∈ normal_locations) /\
    (Txn.location txn ∈ high_risk_locations -> Txn.is_fraud txn = true).
Proof.
  intros Hrun txn Hin. apply recorded_run in Hrun as [Hall _].
  rewrite Forall_forall in Hall. apply Hall in Hin.
  pose proof (rec_location _ _ _ _ _ Hin) as Hloc.
  destruct (Txn.is_fraud txn).
  - split; [exact Hloc |]. split; [discriminate | reflexivity].
  - split; [apply elem_of_app; now right |].
    split; [intros _; exact Hloc |].
    intros Hhigh. exfalso.
    assert (Hdisjoint : forall s, s ∈ high_risk_locations ->
                                  s ∈ normal_locations -> False).
    { intros s Hs Hn.
      apply list_elem_of_In in Hs. apply list_elem_of_In in Hn.
      simpl in Hs, Hn.
      repeat (destruct Hs as [<- | Hs]; [intuition discriminate |]).
      destruct Hs. }
    eapply Hdisjoint; eassumption.
Qed.

Lemma locations_follow_label_witness :
  exists r txn,
    generate_transactions [alice] [card_of alice true] [shop true] 2
                          day_start day_end 0 (rng_of backwards_tape)
    = Some r /\
    transactions (run_state r) !! 0%nat = Some txn /\
    Txn.location txn ∈ normal_locations.
Proof.
  destruct (generate_transactions [alice] [card_of alice true] [shop true] 2
              day_start day_end 0 (rng_of backwards_tape))
    as [r |] eqn:Hrun; [| vm_compute in Hrun; discriminate].
  assert (Htx : exists txn, transactions (run_state r) !! 0%nat = Some txn /\
                            Txn.is_fraud txn = false).
  { vm_compute in Hrun. inversion Hrun. eexists. split; reflexivity. }
  destruct Htx as (txn & Htx & Hfraud).
  exists r, txn. split; [reflexivity |]. split; [exact Htx |].
  destruct (locations_follow_label _ _ _ _ _ _ _ _ _ Hrun txn)
    as (_ & Hnormal & _).
  - eapply list_elem_of_lookup_2. exact Htx.
  - exact (Hnormal Hfraud).
Defined.



(** X9. The denormalised columns agree with the pools: the card number
    is that of a pool card with the transaction's card identifier, the
    merchant name and category are those of a pool merchant with its
    merchant identifier, and the category is a key of the risk model.
    With unique identifiers in the pools these are the records the
    identifiers resolve to. *)
Theorem denormalised_columns_agree
    users cards merchants n_transactions start_date end_date now g r :
  generate_transactions users cards merchants n_transactions
                        start_date end_date now g = Some r ->
  forall txn, txn ∈ transactions (run_state r) ->
    (exists card, card ∈ cards /\
       Card.card_id card = Txn.card_id txn /\
       Card.card_number card = Txn.card_number txn) /\
    (exists merchant, merchant ∈ merchants /\
       Merchant.merchant_id merchant = Txn.merchant_id txn /\
       Merchant.merchant_name merchant = Txn.merchant_name txn /\
       Merchant.merchant_category merchant = Txn.merchant_category txn) /\
    is_Some (dict_lookup merchant_categories (Txn.merchant_category txn)) /\
    (NoDup (map Card.card_id cards) ->
     forall card, card ∈ cards -> Card.card_id card = Txn.card_id txn ->
       Card.card_number card = Txn.card_number txn) /\
    (NoDup (map Merchant.merchant_id merchants) ->
     forall merchant, merchant ∈ merchants ->
       Merchant.merchant_id merchant = Txn.merchant_id txn ->
       Merchant.merchant_name merchant = Txn.merchant_name txn /\
       Merchant.merchant_category merchant = Txn.merchant_category txn).
Proof.
  intros Hrun txn Hin. apply recorded_run in Hrun as [Hall _].
  rewrite Forall_forall in Hall. apply Hall in Hin.
  pose proof (rec_card _ _ _ _ _ Hin) as Hcard.
  pose proof (rec_merchant _ _ _ _ _ Hin) as Hmerchant.
  split; [exact Hcard |]. split; [exact Hmerchant |].
  split; [exact (rec_category _ _ _ _ _ Hin) |].
  destruct Hcard as (c & Hc & Hcid & Hnum).
  destruct Hmerchant as (m & Hm & Hmid & Hname & Hcat).
  split.
  - intros Hnd card Hcard Hsame.
    assert (card = c) as ->; [| exact Hnum].
    eapply NoDup_key_inj; eauto. congruence.
  - intros Hnd merchant Hmerchant Hsame.
    assert (merchant = m) as ->; [| auto].
    eapply NoDup_key_inj; eauto. congruence.
Qed.

Lemma denormalised_columns_agree_witness :
  exists r txn,
    generate_transactions [alice] [card_of alice true] [shop true] 1
                          day_start day_end 0 (rng_of []) = Some r /\
    transactions (run_state r) = [txn] /\
    Card.card_number (card_of alice true) = Txn.card_number txn /\
    Merchant.merchant_name (shop true) = Txn.merchant_name txn.
Proof.
  destruct (generate_transactions [alice] [card_of alice true] [shop true] 1
              day_start day_end 0 (rng_of []))
    as [r |] eqn:Hrun; [| vm_compute in Hrun; discriminate].
  assert (Htx : exists txn, transactions (run_state r) = [txn] /\
                  Card.card_id (card_of alice true) = Txn.card_id txn /\
                  Merchant.merchant_id (shop true) = Txn.merchant_id txn).
  { vm_compute in Hrun. inversion Hrun. eexists. repeat split; reflexivity. }
  destruct Htx as (txn & Htx & Hcid & Hmid).
  exists r, txn. split; [reflexivity |]. split; [exact Htx |].
  destruct (denormalised_columns_agree _ _ _ _ _ _ _ _ _ Hrun txn)
    as (_ & _ & _ & Hcard & Hmerchant).
  - rewrite Htx. apply list_elem_of_here.
  - split.
    + apply Hcard; [| apply list_elem_of_here | exact Hcid].
      apply (bool_decide_unpack _). vm_compute. reflexivity.
    + apply Hmerchant; [| apply list_elem_of_here | exact Hmid].
      apply (bool_decide_unpack _). vm_compute. reflexivity.
Defined.

(** X10. The decorative columns stay in their ranges: the currency is
    USD, the device type and the source system come from their fixed
    lists, the device identifier is [device_] followed by a number from
    1000 to 9999, and the coordinates are a valid latitude and
    longitude. *)
Theorem decorations_in_range
    users cards merchants n_transactions start_date end_date now g r :
  generate_transactions users cards merchants n_transactions
                        start_date end_date now g = Some r ->
  forall txn, txn ∈ transactions (run_state r) ->
    Txn.currency txn = "USD"%string /\
    Txn.device_type txn ∈ device_types /\
    (exists number, 1000 <= number <= 9999 /\
       Txn.device_id txn = "device_" +:+ pretty number) /\
    Txn.source_system txn ∈
      ["mobile_app"; "web_portal"; "pos_terminal"; "api"]%string /\
    (-90 <= Txn.latitude txn <= 90)%Q /\
    (-180 <= Txn.longitude txn <= 180)%Q.
Proof.
  intros Hrun txn Hin. apply recorded_run in Hrun as [Hall _].
  rewrite Forall_forall in Hall. apply Hall in Hin.
  destruct Hin. auto 10.
Qed.

Lemma decorations_in_range_witness :
  exists r txn,
    generate_transactions [alice] [card_of alice true] [shop true] 1
                          day_start day_end 0 (rng_of []) = Some r /\
    transactions (run_state r) = [txn] /\
    (-90 <= Txn.latitude txn <= 90)%Q.
Proof.
  destruct (generate_transactions [alice] [card_of alice true] [shop true] 1
              day_start day_end 0 (rng_of []))
    as [r |] eqn:Hrun; [| vm_compute in Hrun; discriminate].
  assert (Htx : exists txn, transactions (run_state r) = [txn]).
  { vm_compute in Hrun. inversion Hrun. eexists. reflexivity. }
  destruct Htx as (txn & Htx).
  exists r, txn. split; [reflexivity |]. split; [exact Htx |].
  destruct (decorations_in_range _ _ _ _ _ _ _ _ _ Hrun txn)
    as (_ & _ & _ & _ & Hlat & _).
  - rewrite Htx. apply list_elem_of_here.
  - exact Hlat.
Defined.

(** ** Full delivery *)

Lemma every_pass_accepted
    users cards merchants n_transactions start_date end_date now fuel g r :
  (forall user, user ∈ users -> List.filter (eligible user) cards <> []) ->
  while_loop users cards merchants n_transactions start_date end_date now
             fuel initial_state g = Some r ->
  run_exn r = None -> attempts (run_state r) = i (run_state r).
Proof.
  intros Hcards Hrun Hexn. revert Hexn.
  cut (attempts (run_state r) = i (run_state r) \/ run_exn r <> None).
  { intros [H | H] Hexn; [exact H | contradiction]. }
  revert fuel g Hrun.
  cut (forall fuel st g,
          attempts st = i st ->
          while_loop users cards merchants n_transactions
                     start_date end_date now fuel st g = Some r ->
          attempts (run_state r) = i (run_state r) \/ run_exn r <> None).
  { intros H fuel g Hrun. apply (H fuel initial_state g); auto. }
  induction fuel as [| fuel IH]; intros st g Hst Hrun; simpl in Hrun;
    destruct (loop_cond n_transactions st); try discriminate;
    try (injection Hrun as <-; left; exact Hst).
  destruct (attempt users cards merchants start_date end_date now
              (count_attempt st) g) as [[st' | e] g'] eqn:Ha.
  - apply (IH st' g'); [| exact Hrun].
    apply attempt_inv_recorded in Ha
      as [[_ (user & Hu & Hnone)] | (txn & _ & _ & ->)].
    + exfalso. exact (Hcards user Hu Hnone).
    + simpl. lia.
  - injection Hrun as <-. right. discriminate.
Qed.



(** ** More on the scorer *)

Lemma py_min_mono (a b b' : Q) : (b <= b' -> py_min a b <= py_min a b')%Q.
Proof.
  intros H. unfold py_min.
  destruct (Qgtb a b) eqn:E1; destruct (Qgtb a b') eqn:E2;
    try apply Qgtb_true in E1; try apply Qgtb_false in E1;
    try apply Qgtb_true in E2; try apply Qgtb_false in E2; lra.
Qed.

Lemma py_max_mono (a a' b b' : Q) :
  (a <= a' -> b <= b' -> py_max a b <= py_max a' b')%Q.
Proof.
  intros Ha Hb. unfold py_max.
  destruct (Qgtb b a) eqn:E1; destruct (Qgtb b' a') eqn:E2;
    try apply Qgtb_true in E1; try apply Qgtb_false in E1;
    try apply Qgtb_true in E2; try apply Qgtb_false in E2; lra.
Qed.

(** X12. The only way the scorer fails is a category outside the risk
    model: then it raises [KeyError] before drawing its noise, leaving
    the random state as it was; on a known category it returns a value
    and the state has advanced by one draw. *)
Theorem scorer_key_error
    amount transaction_time location merchant_category user_risk_score
    is_fraud g :
  (dict_lookup merchant_categories merchant_category = None ->
   _calculate_fraud_probability
     amount transaction_time location merchant_category
     user_risk_score is_fraud g = (Raise KeyError, g)) /\
  (is_Some (dict_lookup merchant_categories merchant_category) ->
   exists p,
     _calculate_fraud_probability
       amount transaction_time location merchant_category
       user_risk_score is_fraud g = (Ok p, advance g)) /\
  (forall e g',
     _calculate_fraud_probability
       amount transaction_time location merchant_category
       user_risk_score is_fraud g = (Raise e, g') ->
     e = KeyError /\ g' = g /\
     dict_lookup merchant_categories merchant_category = None).
Proof.
  unfold _calculate_fraud_probability, dict_get.
  destruct (dict_lookup merchant_categories merchant_category) as [info |].
  - split; [discriminate |]. split.
    + intros _. eexists.
      unfold random_uniform, random_random, bind, next_word, ret. simpl.
      reflexivity.
    + intros e g'.
      unfold random_uniform, random_random, bind, next_word, ret. simpl.
      discriminate.
  - split; [reflexivity |]. split.
    + intros [info Hinfo]. discriminate.
    + intros e g'. unfold bind, raise. simpl. intros H. inversion H. auto.
Qed.

Lemma scorer_key_error_witness :
  _calculate_fraud_probability
    100 0 "Austin, TX" "pharmacy" (1 # 5) false (rng_of noise_tape)
  = (Raise KeyError, rng_of noise_tape).
Proof.
  apply (proj1 (scorer_key_error
                  100 0 "Austin, TX" "pharmacy" (1 # 5) false
                  (rng_of noise_tape))).
  reflexivity.
Defined.

(** X13. With the same random state, the score never decreases when
    the amount grows, when the user's risk score grows, or when the
    fraud label is switched on. *)
Theorem scorer_monotone
    amount amount' risk risk' is_fraud is_fraud'
    transaction_time location merchant_category g p g1 p' g2 :
  _calculate_fraud_probability
    amount transaction_time location merchant_category risk is_fraud g
  = (Ok p, g1) ->
  _calculate_fraud_probability
    amount' transaction_time location merchant_category risk' is_fraud' g
  = (Ok p', g2) ->
  (amount <= amount')%Q -> (risk <= risk')%Q ->
  (is_fraud = true -> is_fraud' = true) ->
  (p <= p')%Q.
Proof.
  intros H H' Ha Hr Hf.
  unfold _calculate_fraud_probability in H, H'.
  step_as H Dc. step_as H Dn. apply ret_Ok in H as [<- _].
  step_as H' Dc'. step_as H' Dn'. apply ret_Ok in H' as [<- _].
  apply dict_get_Ok in Dc as [Hc ->]. apply dict_get_Ok in Dc' as [Hc' ->].
  rewrite Hc in Hc'. inversion Hc'; subst.
  rewrite Dn in Dn'. inversion Dn'; subst.
  match goal with
  | |- ((if is_fraud then py_max (py_max 0 (py_min 1 ?x)) _ else _)
        <= (if is_fraud' then py_max (py_max 0 (py_min 1 ?y)) _ else _))%Q =>
      set (raw := x); set (raw' := y)
  end.
  assert (Hraw : (raw <= raw')%Q).
  { unfold raw, raw'.
    repeat match goal with
           | |- context [if ?c then _ else _] => destruct c eqn:?
           end;
      repeat match goal with
             | E : Qgtb _ _ = true |- _ => apply Qgtb_true in E
             | E : Qgtb _ _ = false |- _ => apply Qgtb_false in E
             end;
      lra. }
  assert (Hclamp : (py_max 0 (py_min 1 raw) <= py_max 0 (py_min 1 raw'))%Q).
  { apply py_max_mono; [lra | apply py_min_mono, Hraw]. }
  clearbody raw raw'.
  destruct is_fraud, is_fraud'.
  - apply py_max_mono; [exact Hclamp | lra].
  - specialize (Hf eq_refl). discriminate.
  - eapply Qle_trans; [exact Hclamp | apply py_max_lower_l].
  - exact Hclamp.
Qed.

Lemma scorer_monotone_witness :
  exists p p',
    fst (_calculate_fraud_probability
           100 0 "Austin, TX" "grocery" (1 # 5) false (rng_of noise_tape))
    = Ok p /\
    fst (_calculate_fraud_probability
           20000 0 "Austin, TX" "grocery" (1 # 2) true (rng_of noise_tape))
    = Ok p' /\
    (p <= p')%Q.
Proof.
  destruct (_calculate_fraud_probability
              100 0 "Austin, TX" "grocery" (1 # 5) false (rng_of noise_tape))
    as [[p | e] g1] eqn:H1; [| vm_compute in H1; discriminate].
  destruct (_calculate_fraud_probability
              20000 0 "Austin, TX" "grocery" (1 # 2) true (rng_of noise_tape))
    as [[p' | e] g2] eqn:H2; [| vm_compute in H2; discriminate].
  exists p, p'. split; [reflexivity |]. split; [reflexivity |].
  apply (scorer_monotone _ _ _ _ _ _ _ _ _ _ _ _ _ _ H1 H2).
  - unfold Qle. simpl. lia.
  - unfold Qle. simpl. lia.
  - discriminate.
Defined.

(** ** More on the alert deriver *)

Lemma generate_fraud_alerts_cons tx rest :
  generate_fraud_alerts (tx :: rest)
  = if Qgtb (Txn.fraud_probability tx) (5 # 10)
    then bind (random_choice ["pending"; "reviewed"; "resolved"]%string)
              (fun status =>
                 bind (generate_fraud_alerts rest)
                      (fun alerts => ret (alert_of tx status :: alerts)))
    else generate_fraud_alerts rest.
Proof. reflexivity. Qed.

(** The alerts are the flagged transactions, each with a status from
    the list, and the random state moves by one draw per alert. *)
Lemma alerts_shape (transactions : list Txn.t) (g : Rng) :
  exists alerts,
    generate_fraud_alerts transactions g
    = (Ok alerts, {| tape := tape g; text := text g;
                     pos := pos g + length alerts |}) /\
    Forall2
      (fun alert tx =>
         exists status,
           status ∈ ["pending"; "reviewed"; "resolved"]%string /\
           alert = alert_of tx status)
      alerts
      (List.filter (fun tx => Qgtb (Txn.fraud_probability tx) (5 # 10))
                   transactions).
Proof.
  revert g. induction transactions as [| tx rest IH]; intros g.
  - exists []. split; [| constructor].
    unfold generate_fraud_alerts, ret. destruct g. simpl.
    rewrite Nat.add_0_r. reflexivity.
  - rewrite generate_fraud_alerts_cons. cbn [List.filter].
    destruct (Qgtb (Txn.fraud_probability tx) (5 # 10)) eqn:Habove.
    + destruct (succeeds_random_choice
                  ["pending"; "reviewed"; "resolved"]%string
                  ltac:(discriminate) g) as (status & g1 & Hstatus & Hin).
      pose proof Hstatus as Hg1.
      apply random_choice_Ok in Hg1 as [_ ->].
      destruct (IH (advance g)) as (alerts & Hrun & Hall).
      exists (alert_of tx status :: alerts). split.
      * unfold bind at 1. rewrite Hstatus. unfold bind at 1. rewrite Hrun.
        unfold ret, advance. simpl. do 2 f_equal. lia.
      * constructor; [eauto | exact Hall].
    + apply IH.
Qed.

(** X14. [generate_fraud_alerts] never fails and draws exactly once per
    alert.  There are never more alerts than transactions, and every
    alert is built from a transaction of the input: its [alert_id] is
    [alert_] followed by the transaction's identifier, the user and the
    time are copied, the type is fixed and the status is one of
    pending, reviewed and resolved. *)
Theorem alerts_bookkeeping (transactions : list Txn.t) (g : Rng) :
  exists alerts g',
    generate_fraud_alerts transactions g = (Ok alerts, g') /\
    pos g' = (pos g + length alerts)%nat /\
    tape g' = tape g /\
    (length alerts <= length transactions)%nat /\
    (forall alert, alert ∈ alerts ->
       exists tx, tx ∈ transactions /\
         Alert.alert_id alert = "alert_" +:+ Txn.transaction_id tx /\
         Alert.transaction_id alert = Txn.transaction_id tx /\
         Alert.user_id alert = Txn.user_id tx /\
         Alert.created_at alert = Txn.transaction_time tx /\
         Alert.alert_type alert = "automatic_fraud_detection"%string /\
         Alert.status alert ∈ ["pending"; "reviewed"; "resolved"]%string).
Proof.
  destruct (alerts_shape transactions g) as (alerts & Hrun & Hall).
  eexists alerts, _. split; [exact Hrun |]. simpl.
  split; [reflexivity |]. split; [reflexivity |]. split.
  - apply Forall2_length in Hall. rewrite Hall. apply filter_length_le.
  - intros alert Hin.
    apply list_elem_of_lookup in Hin as [k Hk].
    destruct (Forall2_lookup_l _ _ _ _ _ Hall Hk)
      as (tx & Htx & status & Hstatus & ->).
    exists tx. split.
    + apply list_elem_of_lookup_2 in Htx.
      apply list_elem_of_In, filter_In in Htx as [Htx _].
      apply list_elem_of_In, Htx.
    + simpl. auto 10.
Qed.

(** X15. Deriving alerts from a concatenated batch is deriving them
    from the first part and then, with the random state left by it,
    from the second. *)
Theorem alerts_of_concatenation (first second : list Txn.t) (g : Rng) :
  exists alerts1 g1 alerts2 g2,
    generate_fraud_alerts first g = (Ok alerts1, g1) /\
    generate_fraud_alerts second g1 = (Ok alerts2, g2) /\
    generate_fraud_alerts (first ++ second) g = (Ok (alerts1 ++ alerts2), g2).
Proof.
  revert g. induction first as [| tx rest IH]; intros g.
  - destruct (alerts_shape second g) as (alerts2 & Hrun & _).
    eexists [], g, alerts2, _. split; [reflexivity |].
    split; [exact Hrun | exact Hrun].
  - simpl app. rewrite !generate_fraud_alerts_cons.
    destruct (Qgtb (Txn.fraud_probability tx) (5 # 10)).
    + destruct (succeeds_random_choice
                  ["pending"; "reviewed"; "resolved"]%string
                  ltac:(discriminate) g) as (status & g0 & Hstatus & _).
      destruct (IH g0) as (alerts1 & g1 & alerts2 & g2 & H1 & H2 & H12).
      exists (alert_of tx status :: alerts1), g1, alerts2, g2.
      split; [| split; [exact H2 |]].
      * unfold bind at 1. rewrite Hstatus. unfold bind at 1. rewrite H1.
        reflexivity.
      * unfold bind at 1. rewrite Hstatus. unfold bind at 1. rewrite H12.
        reflexivity.
    + apply IH.
Qed.

Lemma NoDup_map_filter {A} (f : A -> string) (keep : A -> bool) (l : list A) :
  NoDup (map f l) -> NoDup (map f (List.filter keep l)).
Proof.
  induction l as [| a l IH]; simpl; intros Hnd; [constructor |].
  apply NoDup_cons in Hnd as [Hfresh Hnd].
  destruct (keep a); simpl; [| auto].
  apply NoDup_cons. split; [| auto].
  intros Hin. apply Hfresh.
  apply list_elem_of_In, in_map_iff in Hin as (x & Hx & Hin).
  apply filter_In in Hin as [Hin _].
  apply list_elem_of_In, in_map_iff. eauto.
Qed.

(** X16. On the output of the synthesizer, the alerts carry pairwise
    distinct identifiers, and the fraud probability of every alert is
    above 0.5 and at most 1. *)
Theorem alerts_of_generated_transactions
    users cards merchants n_transactions start_date end_date now g r
    g2 alerts g3 :
  generate_transactions users cards merchants n_transactions
                        start_date end_date now g = Some r ->
  generate_fraud_alerts (transactions (run_state r)) g2 = (Ok alerts, g3) ->
  NoDup (map Alert.alert_id alerts) /\
  (forall alert, alert ∈ alerts ->
     (5 # 10 < Alert.fraud_probability alert <= 1)%Q).
Proof.
  intros Hrun Halerts.
  destruct (alerts_shape (transactions (run_state r)) g2)
    as (alerts' & Hrun' & Hall).
  rewrite Hrun' in Halerts. inversion Halerts; subst alerts'. clear Halerts.
  pose proof Hrun as Hwf. apply well_formed_run in Hwf.
  apply recorded_run in Hrun as [_ Hids].
  assert (Hnd : NoDup (map Txn.transaction_id
                         (List.filter
                            (fun tx => Qgtb (Txn.fraud_probability tx) (5 # 10))
                            (transactions (run_state r))))).
  { apply NoDup_map_filter. apply (NoDup_numbered _ "txn_" 7). exact Hids. }
  split.
  - apply NoDup_alt. intros j k s Hj Hk.
    change (map Alert.alert_id alerts) with (Alert.alert_id <$> alerts)
      in Hj, Hk.
    rewrite list_lookup_fmap in Hj, Hk.
    destruct (alerts !! j) as [x |] eqn:Ex; [| discriminate].
    destruct (alerts !! k) as [y |] eqn:Ey; [| discriminate].
    simpl in Hj, Hk. inversion Hj as [Hx]. inversion Hk as [Hy].
    destruct (Forall2_lookup_l _ _ _ _ _ Hall Ex) as (tx & Htx & sx & _ & ->).
    destruct (Forall2_lookup_l _ _ _ _ _ Hall Ey) as (ty & Hty & sy & _ & ->).
    simpl in Hx, Hy. rewrite <- Hy in Hx.
    apply (inj (String.app "alert_")) in Hx.
    rewrite NoDup_alt in Hnd. apply (Hnd j k (Txn.transaction_id tx)).
    + change (map Txn.transaction_id ?l) with (Txn.transaction_id <$> l).
      rewrite list_lookup_fmap, Htx. reflexivity.
    + change (map Txn.transaction_id ?l) with (Txn.transaction_id <$> l).
      rewrite list_lookup_fmap, Hty. simpl. now rewrite Hx.
  - intros alert Hin.
    apply list_elem_of_lookup in Hin as [k Hk].
    destruct (Forall2_lookup_l _ _ _ _ _ Hall Hk)
      as (tx & Htx & status & _ & ->).
    apply list_elem_of_lookup_2 in Htx.
    apply list_elem_of_In, filter_In in Htx as [Htx Habove].
    apply Qgtb_true in Habove. simpl. split; [exact Habove |].
    rewrite Forall_forall in Hwf.
    apply list_elem_of_In, Hwf in Htx.
    destruct Htx as [_ _ _ [_ Hupper] _ _]. exact Hupper.
Qed.

Lemma alerts_of_generated_transactions_witness :
  exists r alerts g3,
    generate_transactions [alice] [card_of alice true] [shop true] 2
                          day_start day_end 0 (rng_of flagged_tape) = Some r /\
    generate_fraud_alerts (transactions (run_state r)) (run_rng r)
    = (Ok alerts, g3) /\
    map Alert.alert_id alerts
    = ["alert_txn_0000001"; "alert_txn_0000002"]%string /\
    map Alert.fraud_probability alerts = [8300 # 10000; 5300 # 10000]%Q /\
    map Alert.risk_level alerts = ["high"; "medium"]%string /\
    NoDup (map Alert.alert_id alerts) /\
    (forall alert, alert ∈ alerts ->
       (5 # 10 < Alert.fraud_probability alert <= 1)%Q).
Proof.
  destruct (generate_transactions [alice] [card_of alice true] [shop true] 2
              day_start day_end 0 (rng_of flagged_tape))
    as [r |] eqn:Hrun; [| vm_compute in Hrun; discriminate].
  destruct (generate_fraud_alerts (transactions (run_state r)) (run_rng r))
    as [[alerts | e] g3] eqn:Halerts.
  - exists r, alerts, g3. split; [reflexivity |]. split; [exact Halerts |].
    assert (Hshape :
              map Alert.alert_id alerts
              = ["alert_txn_0000001"; "alert_txn_0000002"]%string /\
              map Alert.fraud_probability alerts = [8300 # 10000; 5300 # 10000]%Q /\
              map Alert.risk_level alerts = ["high"; "medium"]%string).
    { vm_compute in Hrun. injection Hrun as <-.
      vm_compute in Halerts. inversion Halerts. repeat split. }
    destruct Hshape as (Hids & Hprobs & Hlevels).
    split; [exact Hids |]. split; [exact Hprobs |]. split; [exact Hlevels |].
    exact (alerts_of_generated_transactions
             _ _ _ _ _ _ _ _ _ _ _ _ Hrun Halerts).
  - destruct (alerts_shape (transactions (run_state r)) (run_rng r))
      as (a & Ha & _).
    rewrite Ha in Halerts. discriminate.
Defined.

(** ** More on the rewards roll-up *)

Lemma filter_key_unique (users : list User.t) (uid : string) :
  NoDup (map User.user_id users) ->
  (length (List.filter (fun u => String.eqb (User.user_id u) uid) users)
   <= 1)%nat.
Proof.
  induction users as [| u users IH]; simpl; intros Hnd; [lia |].
  apply NoDup_cons in Hnd as [Hfresh Hnd].
  destruct (String.eqb_spec (User.user_id u) uid) as [Heq | _]; [| auto].
  rewrite find_none_filter; [simpl; lia |].
  intros user Hin Hid. apply Hfresh. rewrite Heq, <- Hid.
  apply list_elem_of_In, in_map, list_elem_of_In. exact Hin.
Qed.

Lemma merge_left_keys {A} (left : list (string * A)) (users : list User.t) :
  NoDup (map User.user_id users) ->
  map (fun e => fst (fst e)) (merge_left left users) = map fst left.
Proof.
  intros Hnd. unfold merge_left.
  induction left as [| row left IH]; [reflexivity |].
  cbn [flat_map]. rewrite map_app, IH. cbn [map]. f_equal.
  pose proof (filter_key_unique users (fst row) Hnd) as Hlen.
  destruct (List.filter (fun u => String.eqb (User.user_id u) (fst row)) users)
    as [| u [| u' us]]; simpl in *; [reflexivity | reflexivity | lia].
Qed.

Lemma points_df_keys users (transactions : list Txn.t) rows :
  points_df users transactions = Ok rows ->
  NoDup (map User.user_id users) ->
  map PointsRow.user_id rows
  = merge_sort string_le (remove_dups (map Txn.user_id transactions)).
Proof.
  unfold points_df. destruct transactions as [| t0 rest]; [discriminate |].
  intros H Hnd. inversion H as [Hrows]. clear H Hrows.
  rewrite map_map.
  erewrite map_ext; [rewrite (merge_left_keys _ users Hnd) |].
  - unfold groupby_sum. rewrite !map_map. simpl. apply map_id.
  - intros [[uid [total pts]] risk]. reflexivity.
Qed.

(** Rounding changes the numbers of the roll-up, not its rows: the
    binary64 roll-up has the [user_id] column of the exact one, whatever
    the accumulation. *)
Lemma merge_left_same_keys {A B}
    (left : list (string * A)) (left' : list (string * B))
    (users : list User.t) :
  map fst left = map fst left' ->
  map (fun e => fst (fst e)) (merge_left left users)
  = map (fun e => fst (fst e)) (merge_left left' users).
Proof.
  unfold merge_left. revert left'.
  induction left as [| row left IH]; intros [| row' left'] Hkeys;
    try discriminate; [reflexivity |].
  cbn [map] in Hkeys. injection Hkeys as Hkey Hkeys.
  cbn [flat_map]. rewrite !List.map_app, (IH left' Hkeys). f_equal.
  rewrite <- Hkey.
  destruct (List.filter (fun u => String.eqb (User.user_id u) (fst row)) users)
    as [| u us]; [simpl; now rewrite Hkey |].
  rewrite !List.map_map. cbn [fst]. now rewrite Hkey.
Qed.

Lemma rollup_keys_agree column_sum users (transactions : list Txn.t)
    rows rows' :
  points_df users transactions = Ok rows ->
  points_df_binary64 column_sum users transactions = Ok rows' ->
  map PointsRow.user_id rows' = map PointsRow.user_id rows.
Proof.
  unfold points_df, points_df_binary64.
  destruct transactions as [| t0 rest]; [discriminate |].
  intros H H'. inversion H as [Hrows]. inversion H' as [Hrows'].
  clear H H' Hrows Hrows'.
  rewrite !List.map_map.
  erewrite List.map_ext; [symmetry; erewrite List.map_ext |].
  - apply merge_left_same_keys.
    unfold groupby_sum, groupby_column_sum. rewrite !List.map_map.
    reflexivity.
  - intros [[uid [total pts]] risk]. reflexivity.
  - intros [[uid [total pts]] risk]. reflexivity.
Qed.

(** X17. When the users of the pool carry distinct identifiers, the
    roll-up has exactly one row per distinct [user_id] of the
    transactions, and the rows come sorted by [user_id]. *)
Theorem points_rows_sorted_unique users (transactions : list Txn.t) rows :
  points_df users transactions = Ok rows ->
  NoDup (map User.user_id users) ->
  NoDup (map PointsRow.user_id rows) /\
  Sorted string_le (map PointsRow.user_id rows) /\
  length rows = length (remove_dups (map Txn.user_id transactions)) /\
  (forall uid, uid ∈ map PointsRow.user_id rows <->
               uid ∈ map Txn.user_id transactions).
Proof.
  intros Hdf Hnd. pose proof (points_df_keys _ _ _ Hdf Hnd) as Hkeys.
  assert (Hperm : map PointsRow.user_id rows
                  ≡ₚ remove_dups (map Txn.user_id transactions)).
  { rewrite Hkeys. apply merge_sort_Permutation. }
  split; [rewrite Hperm; apply NoDup_remove_dups |].
  split; [rewrite Hkeys; apply (Sorted_merge_sort string_le) |].
  split.
  - rewrite <- (length_map PointsRow.user_id rows).
    apply Permutation_length, Hperm.
  - intros uid. rewrite Hperm. apply elem_of_remove_dups.
Qed.

Lemma points_rows_sorted_unique_witness :
  exists rows,
    points_df [alice; bob]
              [purchase bob 200; purchase alice 10; purchase bob 37]
    = Ok rows /\
    map PointsRow.user_id rows = ["user_00001"; "user_00003"]%string /\
    Sorted string_le (map PointsRow.user_id rows).
Proof.
  destruct (points_df [alice; bob]
              [purchase bob 200; purchase alice 10; purchase bob 37])
    as [rows | e] eqn:Hdf; [| vm_compute in Hdf; discriminate].
  exists rows. split; [reflexivity |].
  destruct (points_rows_sorted_unique _ _ _ Hdf) as (_ & Hsorted & _).
  { apply (bool_decide_unpack _). vm_compute. reflexivity. }
  split; [| exact Hsorted].
  vm_compute in Hdf. inversion Hdf. reflexivity.
Defined.



(** ** The pipeline of [save_csvs] *)



Lemma while_loop_skip
    users cards merchants n_transactions start_date end_date now fuel st g :
  loop_cond n_transactions st = false ->
  while_loop users cards merchants n_transactions start_date end_date now
             fuel st g
  = Some {| run_exn := None; run_state := st; run_rng := g |}.
Proof. intros H. destruct fuel; simpl; rewrite H; reflexivity. Qed.

(** X20. When the synthesizer emits nothing, the roll-up has no
    [user_id] column to group by and raises [KeyError].  That is the
    case for a target [n <= 0], where the loop is not entered and no
    random draw is made, and for a pool in which no user has an active
    card. *)
Theorem rollup_fails_without_transactions
    users cards merchants n_transactions start_date end_date now g :
  exists r,
    generate_transactions users cards merchants n_transactions
                          start_date end_date now g = Some r /\
    (n_transactions <= 0 ->
     returned r = Ok [] /\ attempts (run_state r) = 0 /\ run_rng r = g /\
     points_df users (transactions (run_state r)) = Raise KeyError) /\
    (users <> [] ->
     (forall user, user ∈ users -> List.filter (eligible user) cards = []) ->
     returned r = Ok [] /\
     points_df users (transactions (run_state r)) = Raise KeyError).
Proof.
  destruct (generation_loop_facts users cards merchants n_transactions
              start_date end_date now g) as (r & Hrun & _ & _).
  exists r. split; [exact Hrun |].
  unfold generate_transactions, generate_transactions_run in Hrun. split.
  - intros Hn. rewrite while_loop_skip in Hrun.
    + inversion Hrun. simpl. auto.
    + unfold loop_cond. simpl.
      destruct (0 <? n_transactions) eqn:E; [| reflexivity].
      apply Z.ltb_lt in E. lia.
  - intros Hne Hnone.
    destruct (discarded_loop _ _ _ _ _ _ _ _ _ _ _ Hne Hnone Hrun)
      as [Hexn Htx].
    simpl in Htx. unfold returned. rewrite Hexn, Htx. auto.
Qed.

Lemma rollup_fails_without_transactions_witness :
  exists r,
    generate_transactions [alice] [card_of alice false] [shop true] 2
                          day_start day_end 0 (rng_of []) = Some r /\
    returned r = Ok [] /\
    points_df [alice] (transactions (run_state r)) = Raise KeyError.
Proof.
  destruct (rollup_fails_without_transactions
              [alice] [card_of alice false] [shop true] 2
              day_start day_end 0 (rng_of [])) as (r & Hrun & _ & Hnone).
  exists r. split; [exact Hrun |]. apply Hnone.
  - discriminate.
  - intros user Hin. apply list_elem_of_singleton in Hin as ->. reflexivity.
Defined.

(** X21. The generators always hand the synthesizer pools it can work
    on: for at least one user and one merchant, with the default
    window, the whole chain runs without raising, and user, card and
    merchant identifiers are pairwise distinct, so that every reference
    of a transaction resolves to one record. *)
Theorem generated_pools_never_raise
    (n_users n_merchants n_transactions now : Z) (g : Rng) :
  1 <= n_users -> 1 <= n_merchants ->
  exists users g1 cards g2 merchants g3 r,
    generate_users n_users g = (Ok users, g1) /\
    generate_cards users g1 = (Ok cards, g2) /\
    generate_merchants n_merchants g2 = (Ok merchants, g3) /\
    generate_transactions users cards merchants n_transactions
                          None None now g3 = Some r /\
    run_exn r = None /\
    NoDup (map User.user_id users) /\
    NoDup (map Card.card_id cards) /\
    NoDup (map Merchant.merchant_id merchants).
Proof.
  intros Hu Hm.
  destruct (generate_users_numbered n_users g)
    as (users & g1 & Husers & Hall_u).
  destruct (generate_cards_shape users g1)
    as (per_user & g2 & Hcards & Hall_c).
  destruct (generate_merchants_numbered n_merchants g2)
    as (merchants & g3 & Hmerchants & Hall_m).
  destruct (generation_loop_facts users (concat per_user) merchants
              n_transactions None None now g3) as (r & Hrun & _ & _).
  exists users, g1, (concat per_user), g2, merchants, g3, r.
  split; [exact Husers |]. split; [exact Hcards |].
  split; [exact Hmerchants |]. split; [exact Hrun |].
  assert (Hnd_u : NoDup (map User.user_id users)).
  { apply (NoDup_numbered _ "user_" 5). intros k user Hk.
    destruct (Forall2_lookup_r _ _ _ _ _ Hall_u Hk) as (i & Hi & Hp & _).
    apply lookup_range in Hi as ->. exact Hp. }
  split; [| split; [exact Hnd_u | split]].
  - eapply while_loop_no_raise; [| exact Hrun].
    split; [| split; [| split]].
    + apply Forall2_length in Hall_u. unfold range in Hall_u.
      rewrite length_seqZ in Hall_u.
      destruct users; [simpl in Hall_u; lia | discriminate].
    + apply Forall2_length in Hall_m. unfold range in Hall_m.
      rewrite length_seqZ in Hall_m.
      destruct merchants; [simpl in Hall_m; lia | discriminate].
    + intros merchant Hin.
      apply list_elem_of_lookup in Hin as [k Hk].
      destruct (Forall2_lookup_r _ _ _ _ _ Hall_m Hk) as (i & _ & _ & Hc & _).
      exact Hc.
    + unfold window_start, window_end, days. simpl. lia.
  - eapply shaped_cards_unique; eassumption.
  - apply (NoDup_numbered _ "merchant_" 5). intros k merchant Hk.
    destruct (Forall2_lookup_r _ _ _ _ _ Hall_m Hk) as (i & Hi & Hp & _).
    apply lookup_range in Hi as ->. exact Hp.
Qed.

Lemma generated_pools_never_raise_witness :
  exists users g1 cards g2 merchants g3 r,
    generate_users 1 (rng_of inactive_parties_tape) = (Ok users, g1) /\
    generate_cards users g1 = (Ok cards, g2) /\
    generate_merchants 1 g2 = (Ok merchants, g3) /\
    generate_transactions users cards merchants 1 None None clock g3
    = Some r /\
    run_exn r = None.
Proof.
  destruct (generated_pools_never_raise 1 1 1 clock
              (rng_of inactive_parties_tape))
    as (users & g1 & cards & g2 & merchants & g3 & r
        & H1 & H2 & H3 & H4 & H5 & _); [lia | lia |].
  exists users, g1, cards, g2, merchants, g3, r. auto 10.
Defined.

(** ** Exceptions of the synthesizer *)

Lemma bind_Raise {A B} (m : M A) (f : A -> M B) g e g' :
  bind m f g = (Raise e, g') ->
  m g = (Raise e, g') \/
  exists a g1, m g = (Ok a, g1) /\ f a g1 = (Raise e, g').
Proof.
  unfold bind. destruct (m g) as [[a | e0] g1]; [eauto |].
  intros H. inversion H. subst. now left.
Qed.

Lemma succeeds_not_Raise {A} (m : M A) (P : A -> Prop) g e g' :
  succeeds m P -> m g = (Raise e, g') -> False.
Proof.
  intros Hm H. destruct (Hm g) as (a & g1 & Hrun & _). congruence.
Qed.

(** Split a raising run of [x <- m ;; k]: the first half raised, or it
    returned and the rest raised. *)
Ltac rstep H D :=
  let a := fresh "v" in
  let g1 := fresh "g" in
  apply bind_Raise in H as [D | (a & g1 & D & H)].

Section RaisingPass.

Variables (users : list User.t) (cards : list Card.t)
          (merchants : list Merchant.t).
Variable n_transactions : Z.
Variables start_date end_date : option Z.
Variable now : Z.

Local Abbreviation raise_cause_ := (raise_cause users merchants).

Lemma attempt_Raise st g e g' :
  attempt users cards merchants start_date end_date now st g = (Raise e, g') ->
  raise_cause_ e.
Proof.
  unfold attempt, raise_cause. intros H.
  rstep H D.
  { apply random_choice_Raise in D as [-> ->]. left. auto. }
  destruct (List.filter (eligible v) cards) as [| c0 cs] eqn:Hf;
    [discriminate |].
  rewrite <- Hf in H.
  rstep H Dcard.
  { apply random_choice_Raise in Dcard as [_ Hnil]. congruence. }
  rstep H Dmer.
  { apply random_choice_Raise in Dmer as [-> ->]. left. auto. }
  apply random_choice_Ok in Dmer as [Hmerchant _].
  rstep H Dtime;
    [exfalso;
     exact (succeeds_not_Raise _ _ _ _ _
              (succeeds_fake_date_time_between _ _) Dtime) |].
  rstep H Dcat.
  { right. unfold dict_get in Dcat.
    destruct (dict_lookup merchant_categories
                (Merchant.merchant_category v1)) eqn:E; [discriminate |].
    inversion Dcat. eauto. }
  apply dict_get_Ok in Dcat as [Hcat _].
  exfalso.
  rstep H Du; [exact (succeeds_not_Raise _ _ _ _ _ succeeds_random_random Du) |].
  match goal with
  | _ : context [Qgtb (user_fraud_rate ?b ?r ?t ?c) ?u] |- _ =>
      set (fraud := Qgtb (user_fraud_rate b r t c) u) in *; clearbody fraud
  end.
  rstep H Dam.
  { destruct fraud; rstep Dam Dl;
      try exact (succeeds_not_Raise _ _ _ _ _
                   (succeeds_np_random_lognormal _ _) Dl);
      discriminate. }
  rstep H Dhigh.
  { destruct fraud; [| discriminate].
    rstep Dhigh Dv;
      [exact (succeeds_not_Raise _ _ _ _ _ succeeds_random_random Dv)
      | discriminate]. }
  rstep H Dloc.
  { destruct v6; apply random_choice_Raise in Dloc as [_ Hnil];
      discriminate. }
  rstep H Ddev.
  { apply random_choice_Raise in Ddev as [_ Hnil]. discriminate. }
  rstep H Dnum.
  { exact (succeeds_not_Raise _ _ _ _ _
             (succeeds_random_randint 1000 9999 ltac:(lia)) Dnum). }
  rstep H Dscore.
  { refine (succeeds_not_Raise _ _ _ _ _ (succeeds_scorer _ _ _ _ _ _ _) Dscore).
    eauto. }
  rstep H Dlat;
    [exact (succeeds_not_Raise _ _ _ _ _ (succeeds_fake_coordinate 90) Dlat) |].
  rstep H Dlon;
    [exact (succeeds_not_Raise _ _ _ _ _ (succeeds_fake_coordinate 180) Dlon) |].
  rstep H Dsrc.
  { apply random_choice_Raise in Dsrc as [_ Hnil]. discriminate. }
  discriminate.
Qed.

Lemma while_loop_Raise fuel st g r e :
  while_loop users cards merchants n_transactions start_date end_date now
             fuel st g = Some r ->
  run_exn r = Some e -> raise_cause_ e.
Proof.
  revert st g.
  induction fuel as [| fuel IH]; intros st g Hrun Hexn; simpl in Hrun;
    destruct (loop_cond n_transactions st); try discriminate;
    try (injection Hrun as <-; discriminate).
  destruct (attempt users cards merchants start_date end_date now
              (count_attempt st) g) as [[st' | e0] g'] eqn:Ha.
  - eapply IH; eassumption.
  - injection Hrun as <-. simpl in Hexn. inversion Hexn; subst.
    eapply attempt_Raise. exact Ha.
Qed.

End RaisingPass.



(** ** Bounds of the effective fraud rate *)

(** X23. The hour, weekend and city factors only ever raise the rate:
    for a non-negative base rate and a risk score of at least -1, the
    effective rate lies between [base * (1 + risk)] and 2.34 times
    that. *)
Theorem user_fraud_rate_factors
    (base_fraud_rate risk_score : Q) (transaction_time : Z) (city : string) :
  (0 <= base_fraud_rate)%Q -> (-1 <= risk_score)%Q ->
  (base_fraud_rate * (1 + risk_score)
   <= user_fraud_rate base_fraud_rate risk_score transaction_time city
   <= (234 # 100) * (base_fraud_rate * (1 + risk_score)))%Q.
Proof.
  intros Hb Hr.
  assert (Hx : (0 <= base_fraud_rate * (1 + risk_score))%Q)
    by (apply Qmult_le_0_compat; lra).
  unfold user_fraud_rate.
  set (x := (base_fraud_rate * (1 + risk_score))%Q) in *. clearbody x.
  repeat match goal with
         | |- context [if ?c then _ else _] => destruct c
         end; split; lra.
Qed.

Lemma user_fraud_rate_factors_witness :
  ((15 # 100) * (1 + (1 # 2))
   <= user_fraud_rate (15 # 100) (1 # 2) (days 2) "Miami")%Q.
Proof.
  apply (user_fraud_rate_factors (15 # 100) (1 # 2) (days 2) "Miami").
  - discriminate.
  - discriminate.
Defined.
